(** * The HTTP binding of components-contrib: model and properties

    The binding lives in [bindings/http/http.go].  The repository holds two
    versions of that file:

    - the one with flat [user]/[password] metadata fields, whose [Invoke]
      sends the configured method and returns the response body and status
      (module [Flat] below);
    - the one with a nested [credentials] pointer, whose [Invoke] always
      posts and returns nothing (module [Nested] below).

    Both are embedded as Rocq functions.  Go strings are byte strings, so
    [string] (a list of 8-bit [ascii]) is used for them as it is.  The
    calls into the Go standard library ([encoding/json], [encoding/base64],
    [net/http], [ioutil]) are modelled next to the code that uses them. *)

From Stdlib Require Import NArith Ascii String.
From stdpp Require Import gmap strings list sorting.

(** ** Bytes *)

Definition byte_val (c : ascii) : N := Ascii.N_of_ascii c.

Definition chr (n : N) : ascii := Ascii.ascii_of_N n.

(** ** [encoding/base64]: [StdEncoding.EncodeToString] *)

Module base64.

Definition encodeStd : string :=
  "ABCDEFGHIJKLMNOPQRSTUVWXYZabcdefghijklmnopqrstuvwxyz0123456789+/".

Definition StdPadding : ascii := "="%char.

(** [enc.encode[i]] for [i < 64]. *)
Definition encode (i : N) : ascii :=
  match String.get (N.to_nat i) encodeStd with
  | Some c => c
  | None => StdPadding
  end.

Definition sextet (val : N) (shift : N) : ascii :=
  encode (N.land (N.shiftr val shift) 63).

(** The loop of [Encoding.Encode] takes three source bytes to four output
    characters; the one or two bytes that remain are padded with [=]. *)
Fixpoint EncodeToString (src : string) : string :=
  match src with
  | EmptyString => EmptyString
  | String b0 EmptyString =>
      let val := N.shiftl (byte_val b0) 16 in
      String (sextet val 18) (String (sextet val 12)
        (String StdPadding (String StdPadding EmptyString)))
  | String b0 (String b1 EmptyString) =>
      let val := N.lor (N.shiftl (byte_val b0) 16) (N.shiftl (byte_val b1) 8) in
      String (sextet val 18) (String (sextet val 12)
        (String (sextet val 6) (String StdPadding EmptyString)))
  | String b0 (String b1 (String b2 rest)) =>
      let val := N.lor (N.lor (N.shiftl (byte_val b0) 16)
                              (N.shiftl (byte_val b1) 8)) (byte_val b2) in
      String (sextet val 18) (String (sextet val 12)
        (String (sextet val 6) (String (sextet val 0) (EncodeToString rest))))
  end.

End base64.

(** ** [unicode/utf8] as [encoding/json] uses it

    [first x] is the entry of [utf8.first] for a lead byte [x >= 0x80]: the
    size of the sequence and the range accepted for its second byte, or
    [None] for a byte that cannot start a sequence. *)

Module utf8.

Definition first (x : N) : option (nat * N * N) :=
  if (x <? 0xC2)%N then None
  else if (x <=? 0xDF)%N then Some (2%nat, 0x80, 0xBF)%N
  else if (x =? 0xE0)%N then Some (3%nat, 0xA0, 0xBF)%N
  else if (x <=? 0xEC)%N then Some (3%nat, 0x80, 0xBF)%N
  else if (x =? 0xED)%N then Some (3%nat, 0x80, 0x9F)%N
  else if (x <=? 0xEF)%N then Some (3%nat, 0x80, 0xBF)%N
  else if (x =? 0xF0)%N then Some (4%nat, 0x90, 0xBF)%N
  else if (x <=? 0xF3)%N then Some (4%nat, 0x80, 0xBF)%N
  else if (x =? 0xF4)%N then Some (4%nat, 0x80, 0x8F)%N
  else None.

Definition between (lo hi : N) (c : ascii) : bool :=
  ((lo <=? byte_val c) && (byte_val c <=? hi))%N.

(** Continuation byte: [locb <= c <= hicb]. *)
Definition cont (c : ascii) : bool := between 0x80 0xBF c.

(** U+FFFD, as the three bytes EF BF BD. *)
Definition RuneError : string :=
  String (chr 0xEF) (String (chr 0xBF) (String (chr 0xBD) EmptyString)).

End utf8.

(** ** Go values shared by both versions *)

(** Go [error] values.  The two the model builds itself are named; those
    that come from outside (URL parsing, the transport, a body reader, the
    caller's handler) carry their message. *)
Inductive error : Type :=
  | UnmarshalTypeError (value field : string)
      (* json: cannot unmarshal <value> into Go struct field <field> *)
  | InvalidMethod (method : string)
      (* net/http: invalid method <method> *)
  | ExternalError (msg : string).

Global Instance error_eq_dec : EqDecision error.
Proof. solve_decision. Defined.

(** The result of a Go call returning [(T, error)]. *)
Inductive Outcome (A : Type) : Type :=
  | Ok (a : A)
  | Err (e : error).

Arguments Ok {A} a.
Arguments Err {A} e.

(** ** [encoding/json], as far as [Init] exercises it

    [Init] marshals a [map[string]string] and unmarshals the text into a
    struct.  The text itself is not modelled: a [json] value stands for the
    text that denotes it. *)

Module json.

#[warnings="-register-all"]
Inductive value : Type :=
  | JNull
  | JString (s : string)
  | JObject (members : list (string * value)).

(** What a Go string reads back as after [encodeState.string] wrote it and
    [unquote] read it: bytes below 0x80 and well-formed UTF-8 sequences are
    kept (escapes are undone on reading), and every byte at which
    [utf8.DecodeRuneInString] reports [(RuneError, 1)] becomes U+FFFD. *)
Fixpoint encodedString (s : string) : string :=
  match s with
  | EmptyString => EmptyString
  | String c0 r0 =>
      let bad := utf8.RuneError +:+ encodedString r0 in
      if (byte_val c0 <? 0x80)%N then String c0 (encodedString r0)
      else
        match utf8.first (byte_val c0), r0 with
        | Some (size, lo, hi), String c1 r1 =>
            if negb (utf8.between lo hi c1) then bad
            else
              match size, r1 with
              | 2%nat, _ => String c0 (String c1 (encodedString r1))
              | _, String c2 r2 =>
                  if negb (utf8.cont c2) then bad
                  else
                    match size, r2 with
                    | 3%nat, _ =>
                        String c0 (String c1 (String c2 (encodedString r2)))
                    | _, String c3 r3 =>
                        if negb (utf8.cont c3) then bad
                        else String c0 (String c1 (String c2
                               (String c3 (encodedString r3))))
                    | _, EmptyString => bad
                    end
              | _, EmptyString => bad
              end
        | _, _ => bad
        end
  end.

(** Map keys are written in increasing byte order of the keys. *)
Definition key_le (x y : string * string) : Prop := String.le x.1 y.1.

Global Instance key_le_dec : RelDecision key_le.
Proof. intros x y. unfold key_le. apply _. Defined.

Definition sortedEntries (m : gmap string string) : list (string * string) :=
  merge_sort key_le (map_to_list m).

(** [json.Marshal] of a [map[string]string]: [null] for the nil map, else
    an object of strings.  It has no failing case at this type. *)
Definition Marshal (properties : option (gmap string string)) : Outcome value :=
  match properties with
  | None => Ok JNull
  | Some m =>
      Ok (JObject ((λ kv, (encodedString kv.1, JString (encodedString kv.2)))
                     <$> sortedEntries m))
  end.

(** Case folding of a key: ASCII letters fold together, and so do the two
    runes that fold into ASCII, U+017F (long s) and U+212A (Kelvin). *)
Fixpoint foldName (s : string) : string :=
  match s with
  | EmptyString => EmptyString
  | String c r =>
      let x := byte_val c in
      if ((0x41 <=? x) && (x <=? 0x5A))%N
      then String (chr (x + 0x20)) (foldName r)
      else
        match r with
        | String c1 r1 =>
            if ((x =? 0xC5) && (byte_val c1 =? 0xBF))%N
            then String "s"%char (foldName r1)
            else
              match r1 with
              | String c2 r2 =>
                  if ((x =? 0xE2) && (byte_val c1 =? 0x84)
                      && (byte_val c2 =? 0xAA))%N
                  then String "k"%char (foldName r2)
                  else String c (foldName r)
              | EmptyString => String c (foldName r)
              end
        | EmptyString => String c EmptyString
        end
  end.

Definition equalFold (name key : string) : bool :=
  String.eqb (foldName name) (foldName key).

(** The field a key selects: the field of exactly that name, else the
    first field whose name equals the key under case folding. *)
Definition findField (names : list string) (key : string) : option string :=
  match List.find (String.eqb key) names with
  | Some f => Some f
  | None => List.find (λ name, equalFold name key) names
  end.

(** The decoder keeps the first type error and goes on decoding. *)
Definition saveError (saved new : option error) : option error :=
  match saved with
  | Some e => Some e
  | None => new
  end.

(** A JSON value stored into a Go [string]. *)
Definition storeString (field : string) (v : value) (old : string)
  : string * option error :=
  match v with
  | JString s => (s, None)
  | JNull => (old, None)
  | JObject _ => (old, Some (UnmarshalTypeError "object" field))
  end.

(** A JSON object decoded into a struct [T] whose fields are [names] and
    whose field [f] is assigned by [store f]. *)
Fixpoint object {T : Type} (names : list string)
    (store : string → value → T → T * option error)
    (members : list (string * value)) (t : T) (saved : option error)
  : T * option error :=
  match members with
  | [] => (t, saved)
  | (key, v) :: rest =>
      match findField names key with
      | None => object names store rest t saved
      | Some f =>
          let '(t', e) := store f v t in
          object names store rest t' (saveError saved e)
      end
  end.

End json.

(** ** [net/http], as far as the binding exercises it *)

Module http.

Record Request : Type := {
  Method : string;
  URL : string;
  Header : gmap string (list string);
  Body : option string
}.

(** [Client.Timeout], in seconds. *)
Record Client : Type := { Timeout : N }.

(** [resp.Body]: what [ioutil.ReadAll] will get out of it. *)
Record ReadCloser : Type := {
  content : string;
  readErr : option error
}.

(** [Response]; its [Body] field is [RespBody] here, [None] for nil. *)
Record Response : Type := {
  Status : string;
  RespBody : option ReadCloser
}.

(** [httpguts.IsTokenRune], on a byte. *)
Definition isToken (c : ascii) : bool :=
  let x := byte_val c in
  (((0x30 <=? x) && (x <=? 0x39)) || ((0x41 <=? x) && (x <=? 0x5A))
   || ((0x61 <=? x) && (x <=? 0x7A)))%N
  || bool_decide (c ∈ list_ascii_of_string "!#$%&'*+-.^_`|~").

Definition validMethod (method : string) : bool :=
  negb (String.eqb method "")
  && forallb isToken (list_ascii_of_string method).

(** [http.NewRequest]: an empty method means GET, a method that is not a
    token is refused, and so is a URL that [url.Parse] refuses. *)
Definition NewRequest (url_Parse : string → option error)
    (method url : string) (body : option string) : Outcome Request :=
  let method := if String.eqb method "" then "GET" else method in
  if negb (validMethod method) then Err (InvalidMethod method)
  else
    match url_Parse url with
    | Some err => Err err
    | None => Ok {| Method := method; URL := url; Header := ∅; Body := body |}
    end.

(** [Header.Set]; the keys the binding sets are in canonical form. *)
Definition Header_Set (key val : string) (r : Request) : Request :=
  {| Method := Method r; URL := URL r;
     Header := <[key := [val]]> (Header r); Body := Body r |}.

End http.

(** ** Package [bindings]: the structs the binding exchanges with its host,
    with the fields this file reads or writes. *)

Module bindings.

Record Metadata : Type := { Properties : option (gmap string string) }.

Record ReadResponse : Type := { read_Data : string }.

Record InvokeRequest : Type := { Data : string }.

Record InvokeResponse : Type := {
  resp_Data : string;
  resp_Metadata : gmap string string
}.

Inductive OperationKind : Type := CreateOperation.

End bindings.

(** ** Running the binding

    A call runs on a state: the binding itself (the receiver [h]), the
    world outside it, and the log of what the call did to that world. *)

Inductive Event : Type :=
  | EvDo (client : http.Client) (req : http.Request)  (* client.Do(req) *)
  | EvReadAll (body : http.ReadCloser)           (* ioutil.ReadAll(resp.Body) *)
  | EvClose (body : http.ReadCloser)             (* resp.Body.Close() *)
  | EvHandler (resp : bindings.ReadResponse).    (* handler(resp) *)

(** A call either returns or panics. *)
Inductive Run (A : Type) : Type :=
  | Done (a : A)
  | Panic.

Arguments Done {A} a.
Arguments Panic {A}.

Record State (H W : Type) : Type := {
  self : H;
  world : W;
  trace : list Event
}.

Arguments self {H W} s.
Arguments world {H W} s.
Arguments trace {H W} s.

(** What the binding runs against: URL parsing and the HTTP round trip. *)
Record Env (W : Type) : Type := {
  url_Parse : string → option error;
  roundTrip : http.Client → http.Request → W → Outcome http.Response * W
}.

Arguments url_Parse {W} e.
Arguments roundTrip {W} e.

(** The caller's handler of [Read]. *)
Definition Handler (W : Type) : Type :=
  bindings.ReadResponse → W → option error * W.

Definition M (H W A : Type) : Type := State H W → Run A * State H W.

Global Instance M_ret {H W} : MRet (M H W) := λ A a s, (Done a, s).

Global Instance M_bind {H W} : MBind (M H W) := λ A B k m s,
  match m s with
  | (Done a, s') => k a s'
  | (Panic, s') => (Panic, s')
  end.

Section primitives.
Context {H W : Type}.

Definition panic {A} : M H W A := λ s, (Panic, s).

Definition log (ev : Event) : M H W unit :=
  λ s, (Done tt, {| self := self s; world := world s;
                   trace := trace s ++ [ev] |}).

Definition getSelf : M H W H := λ s, (Done (self s), s).

Definition setSelf (h : H) : M H W unit :=
  λ s, (Done tt, {| self := h; world := world s; trace := trace s |}).

(** [client.Do(req)] *)
Definition Do (env : Env W) (client : http.Client) (req : http.Request)
  : M H W (Outcome http.Response) :=
  λ s, let '(r, w) := roundTrip env client req (world s) in
       (Done r, {| self := self s; world := w;
                  trace := trace s ++ [EvDo client req] |}).

(** [ioutil.ReadAll(body)]; on a nil reader it dereferences nil. *)
Definition ReadAll (body : option http.ReadCloser) : M H W (Outcome string) :=
  match body with
  | None => panic
  | Some b =>
      log (EvReadAll b);;
      mret match http.readErr b with
           | Some err => Err err
           | None => Ok (http.content b)
           end
  end.

(** [body.Close()] *)
Definition Close (body : http.ReadCloser) : M H W unit := log (EvClose body).

(** [handler(resp)] *)
Definition call (handler : Handler W) (resp : bindings.ReadResponse)
  : M H W (option error) :=
  λ s, let '(r, w) := handler resp (world s) in
       (Done r, {| self := self s; world := w;
                  trace := trace s ++ [EvHandler resp] |}).
End primitives.

(** ** The binding with flat [user] and [password] fields
    ([bindings/http/http.go]) *)

Module Flat.

Record httpMetadata : Type := {
  URL : string;       (* json:"url" *)
  Method : string;    (* json:"method" *)
  User : string;      (* json:"user" *)
  Password : string   (* json:"password" *)
}.

Record HTTPSource (Logger : Type) : Type := {
  metadata : httpMetadata;
  logger : Logger
}.

Arguments metadata {Logger} h.
Arguments logger {Logger} h.

(** [var m httpMetadata] *)
Definition zero : httpMetadata :=
  {| URL := ""; Method := ""; User := ""; Password := "" |}.

Definition NewHTTP {Logger} (logger : Logger) : HTTPSource Logger :=
  {| metadata := zero; logger := logger |}.

Definition fields : list string := ["url"; "method"; "user"; "password"].

Definition store (f : string) (v : json.value) (m : httpMetadata)
  : httpMetadata * option error :=
  if String.eqb f "url" then
    let '(x, e) := json.storeString "httpMetadata.url" v (URL m) in
    ({| URL := x; Method := Method m; User := User m;
        Password := Password m |}, e)
  else if String.eqb f "method" then
    let '(x, e) := json.storeString "httpMetadata.method" v (Method m) in
    ({| URL := URL m; Method := x; User := User m;
        Password := Password m |}, e)
  else if String.eqb f "user" then
    let '(x, e) := json.storeString "httpMetadata.user" v (User m) in
    ({| URL := URL m; Method := Method m; User := x;
        Password := Password m |}, e)
  else if String.eqb f "password" then
    let '(x, e) := json.storeString "httpMetadata.password" v (Password m) in
    ({| URL := URL m; Method := Method m; User := User m;
        Password := x |}, e)
  else (m, None).

(** [json.Unmarshal(b, &m)] *)
Definition Unmarshal (b : json.value) (m : httpMetadata)
  : httpMetadata * option error :=
  match b with
  | json.JNull => (m, None)
  | json.JObject members => json.object fields store members m None
  | json.JString _ => (m, Some (UnmarshalTypeError "string" "httpMetadata"))
  end.

Definition addBasicAuthHeader (request : http.Request) (user password : string)
  : http.Request :=
  let auth := user +:+ ":" +:+ password in
  let encodedAuth := base64.EncodeToString auth in
  http.Header_Set "Authorization" ("Basic " +:+ encodedAuth) request.

Definition addCredentials (req : http.Request) (user password : string)
  : http.Request :=
  if negb (String.eqb user "") && negb (String.eqb password "")
  then addBasicAuthHeader req user password
  else req.

Section methods.
Context {Logger W : Type} (env : Env W).

Local Abbreviation M := (M (HTTPSource Logger) W).

Definition Init (metadata : bindings.Metadata) : M (option error) :=
  match json.Marshal (bindings.Properties metadata) with
  | Err err => mret (Some err)
  | Ok b =>
      match Unmarshal b zero with
      | (_, Some err) => mret (Some err)
      | (m, None) =>
          h ← getSelf;
          setSelf {| metadata := m; logger := logger h |};;
          mret None
      end
  end.

Definition get (url : string) : M (Outcome string) :=
  let client := {| http.Timeout := 60 |} in
  match http.NewRequest (url_Parse env) "GET" url None with
  | Err err => mret (Err err)
  | Ok req =>
      h ← getSelf;
      let req := addCredentials req (User (metadata h))
                                    (Password (metadata h)) in
      r ← Do env client req;
      match r with
      | Err err => mret (Err err)
      | Ok resp =>
          b ← ReadAll (http.RespBody resp);
          match b with
          | Err err => mret (Err err)
          | Ok b =>
              match http.RespBody resp with
              | Some body => Close body
              | None => mret tt
              end;;
              mret (Ok b)
          end
      end
  end.

Definition Read (handler : Handler W) : M (option error) :=
  h ← getSelf;
  r ← get (URL (metadata h));
  match r with
  | Err err => mret (Some err)
  | Ok b =>
      call handler {| bindings.read_Data := b |};;
      mret None
  end.

Definition Operations : M (list bindings.OperationKind) :=
  mret [bindings.CreateOperation].

Definition Invoke (req : bindings.InvokeRequest)
  : M (Outcome (option bindings.InvokeResponse)) :=
  let client := {| http.Timeout := 5 |} in
  h ← getSelf;
  match http.NewRequest (url_Parse env) (Method (metadata h))
          (URL (metadata h)) (Some (bindings.Data req)) with
  | Err err => mret (Err err)
  | Ok r =>
      let r := http.Header_Set "Content-Type"
                 "application/json; charset=utf-8" r in
      let r := addCredentials r (User (metadata h))
                                (Password (metadata h)) in
      resp ← Do env client r;
      match resp with
      | Err err => mret (Err err)
      | Ok resp =>
          match http.RespBody resp with
          | Some body =>
              data ← ReadAll (Some body);
              match data with
              | Err err => mret (Err err)
              | Ok data =>
                  Close body;;
                  mret (Ok (Some
                    {| bindings.resp_Data := data;
                       bindings.resp_Metadata :=
                         {["status" := http.Status resp]} |}))
              end
          | None =>
              mret (Ok (Some
                {| bindings.resp_Data := "";
                   bindings.resp_Metadata :=
                     {["status" := http.Status resp]} |}))
          end
      end
  end.
End methods.

End Flat.

(** ** The binding with a nested [credentials] pointer *)

Module Nested.

Record credentials : Type := {
  User : string;      (* json:"user" *)
  Password : string   (* json:"password" *)
}.

Record httpMetadata : Type := {
  URL : string;                       (* json:"url" *)
  Method : string;                    (* json:"method" *)
  Credentials : option credentials    (* json:"credentials" *)
}.

Record HTTPSource (Logger : Type) : Type := {
  metadata : httpMetadata;
  logger : Logger
}.

Arguments metadata {Logger} h.
Arguments logger {Logger} h.

Definition zero : httpMetadata :=
  {| URL := ""; Method := ""; Credentials := None |}.

Definition NewHTTP {Logger} (logger : Logger) : HTTPSource Logger :=
  {| metadata := zero; logger := logger |}.

Definition fields : list string := ["url"; "method"; "credentials"].

Definition credentials_fields : list string := ["user"; "password"].

Definition credentials_store (f : string) (v : json.value) (c : credentials)
  : credentials * option error :=
  if String.eqb f "user" then
    let '(x, e) := json.storeString "httpMetadata.credentials.user" v (User c) in
    ({| User := x; Password := Password c |}, e)
  else if String.eqb f "password" then
    let '(x, e) :=
      json.storeString "httpMetadata.credentials.password" v (Password c) in
    ({| User := User c; Password := x |}, e)
  else (c, None).

(** A JSON value stored into the [*credentials] field: [null] sets the
    pointer to nil; anything else first allocates the struct when the
    pointer is nil, then decodes an object into it or reports the type
    error. *)
Definition storeCredentials (v : json.value) (old : option credentials)
  : option credentials * option error :=
  let c := default {| User := ""; Password := "" |} old in
  match v with
  | json.JNull => (None, None)
  | json.JObject members =>
      let '(c', e) :=
        json.object credentials_fields credentials_store members c None in
      (Some c', e)
  | json.JString _ =>
      (Some c, Some (UnmarshalTypeError "string" "httpMetadata.credentials"))
  end.

Definition store (f : string) (v : json.value) (m : httpMetadata)
  : httpMetadata * option error :=
  if String.eqb f "url" then
    let '(x, e) := json.storeString "httpMetadata.url" v (URL m) in
    ({| URL := x; Method := Method m; Credentials := Credentials m |}, e)
  else if String.eqb f "method" then
    let '(x, e) := json.storeString "httpMetadata.method" v (Method m) in
    ({| URL := URL m; Method := x; Credentials := Credentials m |}, e)
  else if String.eqb f "credentials" then
    let '(x, e) := storeCredentials v (Credentials m) in
    ({| URL := URL m; Method := Method m; Credentials := x |}, e)
  else (m, None).

(** [json.Unmarshal(b, &m)] *)
Definition Unmarshal (b : json.value) (m : httpMetadata)
  : httpMetadata * option error :=
  match b with
  | json.JNull => (m, None)
  | json.JObject members => json.object fields store members m None
  | json.JString _ => (m, Some (UnmarshalTypeError "string" "httpMetadata"))
  end.

Definition addBasicAuthHeader (request : http.Request) (user password : string)
  : http.Request :=
  let auth := user +:+ ":" +:+ password in
  let encodedAuth := base64.EncodeToString auth in
  http.Header_Set "Authorization" ("Basic " +:+ encodedAuth) request.

Definition addCredentials (req : http.Request) (credentials : option credentials)
  : http.Request :=
  match credentials with
  | Some c =>
      if negb (String.eqb (User c) "") && negb (String.eqb (Password c) "")
      then addBasicAuthHeader req (User c) (Password c)
      else req
  | None => req
  end.

Section methods.
Context {Logger W : Type} (env : Env W).

Local Abbreviation M := (M (HTTPSource Logger) W).

Definition Init (metadata : bindings.Metadata) : M (option error) :=
  match json.Marshal (bindings.Properties metadata) with
  | Err err => mret (Some err)
  | Ok b =>
      match Unmarshal b zero with
      | (_, Some err) => mret (Some err)
      | (m, None) =>
          h ← getSelf;
          setSelf {| metadata := m; logger := logger h |};;
          mret None
      end
  end.

Definition get (url : string) : M (Outcome string) :=
  let client := {| http.Timeout := 60 |} in
  match http.NewRequest (url_Parse env) "GET" url None with
  | Err err => mret (Err err)
  | Ok req =>
      h ← getSelf;
      let req := addCredentials req (Credentials (metadata h)) in
      r ← Do env client req;
      match r with
      | Err err => mret (Err err)
      | Ok resp =>
          b ← ReadAll (http.RespBody resp);
          match b with
          | Err err => mret (Err err)
          | Ok b =>
              match http.RespBody resp with
              | Some body => Close body
              | None => mret tt
              end;;
              mret (Ok b)
          end
      end
  end.

Definition Read (handler : Handler W) : M (option error) :=
  h ← getSelf;
  r ← get (URL (metadata h));
  match r with
  | Err err => mret (Some err)
  | Ok b =>
      call handler {| bindings.read_Data := b |};;
      mret None
  end.

Definition Operations : M (list bindings.OperationKind) :=
  mret [bindings.CreateOperation].

Definition Invoke (req : bindings.InvokeRequest)
  : M (Outcome (option bindings.InvokeResponse)) :=
  let client := {| http.Timeout := 5 |} in
  h ← getSelf;
  match http.NewRequest (url_Parse env) "POST" (URL (metadata h))
          (Some (bindings.Data req)) with
  | Err err => mret (Err err)
  | Ok r =>
      let r := http.Header_Set "Content-Type"
                 "application/json; charset=utf-8" r in
      let r := addCredentials r (Credentials (metadata h)) in
      resp ← Do env client r;
      match resp with
      | Err err => mret (Err err)
      | Ok resp =>
          match http.RespBody resp with
          | Some body => Close body
          | None => mret tt
          end;;
          mret (Ok None)
      end
  end.
End methods.

End Nested.

(** ** Observing a call *)

(** The events a call adds to the log. *)
Definition during {H W A} (m : M H W A) (s : State H W) : list Event :=
  drop (length (trace s)) (trace (m s).2).

(** The requests handed to the transport, in order. *)
Definition requests (t : list Event) : list http.Request :=
  omap (λ ev, match ev with EvDo _ r => Some r | _ => None end) t.

(** The calls of the handler, in order. *)
Definition handled (t : list Event) : list bindings.ReadResponse :=
  omap (λ ev, match ev with EvHandler r => Some r | _ => None end) t.

(** The bodies closed, in order. *)
Definition closings (t : list Event) : list http.ReadCloser :=
  omap (λ ev, match ev with EvClose b => Some b | _ => None end) t.

(** What follows [client.Do(req)] in the log of a call that reads the body
    to its end, closes it and then does [last]. *)
Definition reading {W} (env : Env W) (client : http.Client)
    (req : http.Request) (w : W) (last : http.ReadCloser → list Event)
  : list Event :=
  match (roundTrip env client req w).1 with
  | Err _ => []
  | Ok resp =>
      match http.RespBody resp with
      | None => []
      | Some body =>
          EvReadAll body ::
          match http.readErr body with
          | Some _ => []
          | None => EvClose body :: last body
          end
      end
  end.

(** The header the specification asks of a request made for [user] and
    [password]: [Authorization: Basic base64(user:password)] when both are
    non-empty, and no [Authorization] header otherwise. *)
Definition authorized (user password : string) (r : http.Request) : Prop :=
  http.Header r !! "Authorization" =
    if decide (user ≠ "" ∧ password ≠ "")
    then Some ["Basic " +:+ base64.EncodeToString (user +:+ ":" +:+ password)]
    else None.

(** The calls a host makes on a binding once it is initialized. *)
Inductive Call (W : Type) : Type :=
  | CallRead (handler : Handler W)
  | CallInvoke (req : bindings.InvokeRequest)
  | CallOperations.

Arguments CallRead {W} handler.
Arguments CallInvoke {W} req.
Arguments CallOperations {W}.

Definition Flat_call {Logger W} (env : Env W) (c : Call W)
    (s : State (Flat.HTTPSource Logger) W) : State (Flat.HTTPSource Logger) W :=
  match c with
  | CallRead handler => (Flat.Read env handler s).2
  | CallInvoke req => (Flat.Invoke env req s).2
  | CallOperations => (Flat.Operations s).2
  end.

Definition Nested_call {Logger W} (env : Env W) (c : Call W)
    (s : State (Nested.HTTPSource Logger) W)
  : State (Nested.HTTPSource Logger) W :=
  match c with
  | CallRead handler => (Nested.Read env handler s).2
  | CallInvoke req => (Nested.Invoke env req s).2
  | CallOperations => (Nested.Operations s).2
  end.

(** ** Property bags *)

(** The key [k] of a property bag is decoded into the field tagged
    [name]. *)
Definition binds (name k : string) : Prop :=
  json.equalFold name (json.encodedString k) = true.

Global Instance binds_dec name k : Decision (binds name k).
Proof. unfold binds. apply _. Defined.

(** The property [name] is absent from the bag, or empty; a nil bag has no
    properties. *)
Definition missing_or_empty (name : string)
    (properties : option (gmap string string)) : Prop :=
  map_Forall (λ k v, binds name k → v = "") (default ∅ properties).

Global Instance missing_or_empty_dec name properties :
  Decision (missing_or_empty name properties).
Proof. unfold missing_or_empty. apply _. Defined.

(** No property of the bag is decoded into the field tagged [name]. *)
Definition missing (name : string)
    (properties : option (gmap string string)) : Prop :=
  map_Forall (λ k _, ¬ binds name k) (default ∅ properties).

Global Instance missing_dec name properties :
  Decision (missing name properties).
Proof. unfold missing. apply _. Defined.

(** A member of a JSON object whose value is a string. *)
Definition is_string (kv : string * json.value) : Prop :=
  ∃ s, kv.2 = json.JString s.

(** A member whose key folds to [name] holds the empty string. *)
Definition empty_for (name : string) (kv : string * json.value) : Prop :=
  json.equalFold name kv.1 = true → kv.2 = json.JString "".

(** The property [name] is given the value [v]: some key of the bag is
    decoded into the field tagged [name], and every key that is holds
    [v]. *)
Definition given (name : string) (properties : option (gmap string string))
    (v : string) : Prop :=
  map_Exists (λ k _, binds name k) (default ∅ properties)
  ∧ map_Forall (λ k v', binds name k → v' = v) (default ∅ properties).

Global Instance given_dec name properties v :
  Decision (given name properties v).
Proof. unfold given. apply _. Defined.

(** A string of bytes below 0x80. *)
Definition ascii_only (s : string) : Prop :=
  Forall (λ c, (byte_val c < 0x80)%N) (list_ascii_of_string s).

Global Instance ascii_only_dec s : Decision (ascii_only s).
Proof. unfold ascii_only. apply _. Defined.

(** A character of the base64 alphabet, or the padding. *)
Definition base64_char (c : ascii) : Prop :=
  c ∈ list_ascii_of_string base64.encodeStd ∨ c = base64.StdPadding.

(** The round trips of a log: the client and the request of each. *)
Definition roundTrips (t : list Event) : list (http.Client * http.Request) :=
  omap (λ ev, match ev with EvDo c r => Some (c, r) | _ => None end) t.

(** The bodies read, in order. *)
Definition readings (t : list Event) : list http.ReadCloser :=
  omap (λ ev, match ev with EvReadAll b => Some b | _ => None end) t.

(** ** Sample worlds

    The world is what the caller's handler has received so far. *)

Module Sample.

Definition body (text : string) : http.ReadCloser :=
  {| http.content := text; http.readErr := None |}.

Definition brokenBody : http.ReadCloser :=
  {| http.content := "";
     http.readErr := Some (ExternalError "unexpected EOF") |}.

(** An endpoint that answers every request with [status] and [b]. *)
Definition answering (status : string) (b : http.ReadCloser)
  : Env (list string) :=
  {| url_Parse := λ _, None;
     roundTrip := λ _ _ w,
       (Ok {| http.Status := status; http.RespBody := Some b |}, w) |}.

(** An endpoint nobody listens on. *)
Definition unreachable : Env (list string) :=
  {| url_Parse := λ _, None;
     roundTrip := λ _ _ w, (Err (ExternalError "connection refused"), w) |}.

Definition keep : Handler (list string) :=
  λ resp w, (None, w ++ [bindings.read_Data resp]).

Definition reject : Handler (list string) :=
  λ resp w, (Some (ExternalError "handler failed"),
             w ++ [bindings.read_Data resp]).

Definition flat (m : Flat.httpMetadata)
  : State (Flat.HTTPSource unit) (list string) :=
  {| self := {| Flat.metadata := m; Flat.logger := tt |};
     world := []; trace := [] |}.

Definition nested (m : Nested.httpMetadata)
  : State (Nested.HTTPSource unit) (list string) :=
  {| self := {| Nested.metadata := m; Nested.logger := tt |};
     world := []; trace := [] |}.

Definition bag (l : list (string * string)) : bindings.Metadata :=
  {| bindings.Properties := Some (list_to_map l) |}.

End Sample.

(** [Invoke] of the nested version as the host calls it, with a pointer:
    [req.Data] is the first thing the body evaluates, so a nil [req] panics
    there, before anything is built or sent. *)
Definition Nested_Invoke_pointer {Logger W} (env : Env W)
    (req : option bindings.InvokeRequest)
  : M (Nested.HTTPSource Logger) W (Outcome (option bindings.InvokeResponse)) :=
  match req with
  | None => panic
  | Some r => Nested.Invoke env r
  end.

(** ** More sample worlds *)

Module Scenario.

(** An endpoint that answers [200 OK], met through a parser that refuses a
    url starting with a colon, as [url.Parse] does ("missing protocol
    scheme"). *)
Definition strict : Env (list string) :=
  {| url_Parse := λ u,
       if String.prefix ":" u
       then Some (ExternalError "missing protocol scheme")
       else None;
     roundTrip := roundTrip (Sample.answering "200 OK" (Sample.body "ok")) |}.

Definition flat (url method user password : string)
  : State (Flat.HTTPSource unit) (list string) :=
  Sample.flat {| Flat.URL := url; Flat.Method := method;
                 Flat.User := user; Flat.Password := password |}.

Definition nested (url method : string)
    (credentials : option Nested.credentials)
  : State (Nested.HTTPSource unit) (list string) :=
  Sample.nested {| Nested.URL := url; Nested.Method := method;
                   Nested.Credentials := credentials |}.

Definition payload : bindings.InvokeRequest := {| bindings.Data := "{}" |}.

End Scenario.

(** * Properties *)

(** ** Test vectors *)

Example base64_rfc4648 :
  base64.EncodeToString "" = ""
  ∧ base64.EncodeToString "f" = "Zg=="
  ∧ base64.EncodeToString "fo" = "Zm8="
  ∧ base64.EncodeToString "foo" = "Zm9v"
  ∧ base64.EncodeToString "foob" = "Zm9vYg=="
  ∧ base64.EncodeToString "fooba" = "Zm9vYmE="
  ∧ base64.EncodeToString "foobar" = "Zm9vYmFy"
  ∧ base64.EncodeToString "a:b" = "YTpi".
Proof. repeat split; reflexivity. Qed.

Example foldName_examples :
  json.foldName "URL" = "url"
  ∧ json.foldName "PaſſWord" = "password"
  ∧ json.foldName "K" = "k"
  ∧ json.findField Flat.fields "Method" = Some "method"
  ∧ json.findField Flat.fields "credentials" = None
  ∧ json.findField Nested.fields "CREDENTIALS" = Some "credentials".
Proof. repeat split; reflexivity. Qed.

(** ** Running the primitives *)

Ltac run :=
  repeat progress
    (unfold mbind, M_bind, mret, M_ret, getSelf, setSelf, Do, ReadAll, Close,
       call, log, panic in *;
     simpl in * ).

Ltac cases := repeat (case_match; simplify_eq/=; try done); try done.

Ltac go := repeat progress (run; cases).

(** Case analysis on the string comparisons of the goal. *)
Ltac eqb_cases :=
  repeat match goal with
         | |- context [String.eqb ?a ?b] =>
             destruct (String.eqb_spec a b); simplify_eq/=
         end.

Section frame.
Context {Logger W : Type} (env : Env W).

Lemma Flat_get_self url (s : State (Flat.HTTPSource Logger) W) :
  self (Flat.get env url s).2 = self s.
Proof. unfold Flat.get. go. Qed.

Lemma Flat_Read_self handler (s : State (Flat.HTTPSource Logger) W) :
  self (Flat.Read env handler s).2 = self s.
Proof.
  unfold Flat.Read. run.
  pose proof (Flat_get_self (Flat.URL (Flat.metadata (self s))) s) as Hget.
  destruct (Flat.get env _ s) as [[[b|err]|] s1]; simpl in *; try done.
  by destruct (handler _ _).
Qed.

Lemma Flat_Invoke_self req (s : State (Flat.HTTPSource Logger) W) :
  self (Flat.Invoke env req s).2 = self s.
Proof. unfold Flat.Invoke. go. Qed.

Lemma Flat_call_self c (s : State (Flat.HTTPSource Logger) W) :
  self (Flat_call env c s) = self s.
Proof.
  destruct c; simpl;
    auto using Flat_Read_self, Flat_Invoke_self.
Qed.

Lemma Nested_get_self url (s : State (Nested.HTTPSource Logger) W) :
  self (Nested.get env url s).2 = self s.
Proof. unfold Nested.get. go. Qed.

Lemma Nested_Read_self handler (s : State (Nested.HTTPSource Logger) W) :
  self (Nested.Read env handler s).2 = self s.
Proof.
  unfold Nested.Read. run.
  pose proof (Nested_get_self (Nested.URL (Nested.metadata (self s))) s)
    as Hget.
  destruct (Nested.get env _ s) as [[[b|err]|] s1]; simpl in *; try done.
  by destruct (handler _ _).
Qed.

Lemma Nested_Invoke_self req (s : State (Nested.HTTPSource Logger) W) :
  self (Nested.Invoke env req s).2 = self s.
Proof. unfold Nested.Invoke. go. Qed.

Lemma Nested_call_self c (s : State (Nested.HTTPSource Logger) W) :
  self (Nested_call env c s) = self s.
Proof.
  destruct c; simpl;
    auto using Nested_Read_self, Nested_Invoke_self.
Qed.
End frame.

(** ** Decoding a property bag *)

Lemma sortedEntries_elem (m : gmap string string) k v :
  (k, v) ∈ json.sortedEntries m ↔ m !! k = Some v.
Proof.
  unfold json.sortedEntries. rewrite merge_sort_Permutation.
  apply elem_of_map_to_list.
Qed.

(** Every member of a marshalled map is a string that comes from an entry
    of the map. *)
Lemma Marshal_members (m : gmap string string) key val :
  (key, val) ∈ (λ kv : string * string,
      (json.encodedString kv.1, json.JString (json.encodedString kv.2)))
        <$> json.sortedEntries m →
  ∃ k v, m !! k = Some v ∧ key = json.encodedString k
         ∧ val = json.JString (json.encodedString v).
Proof.
  intros ([k v] & [= -> ->] & Hin)%list_elem_of_fmap.
  exists k, v. by apply sortedEntries_elem in Hin.
Qed.

Lemma Marshal_strings (m : gmap string string) :
  Forall is_string ((λ kv : string * string,
      (json.encodedString kv.1, json.JString (json.encodedString kv.2)))
        <$> json.sortedEntries m).
Proof.
  apply Forall_forall. intros [key val] (k & v & _ & _ & ->)%Marshal_members.
  by exists (json.encodedString v).
Qed.

Lemma saveError_None saved : json.saveError saved None = saved.
Proof. by destruct saved. Qed.

Lemma findField_fold names key f :
  json.findField names key = Some f →
  f ∈ names ∧ json.equalFold f key = true.
Proof.
  unfold json.findField. destruct (find (String.eqb key) names) eqn:Hexact.
  - intros [= ->]. apply find_some in Hexact as [Hin Heq].
    apply String.eqb_eq in Heq as ->. split; [by apply list_elem_of_In|].
    unfold json.equalFold. apply String.eqb_refl.
  - intros [Hin Heq]%find_some. split; [by apply list_elem_of_In|done].
Qed.

Lemma Flat_store_string f s m : (Flat.store f (json.JString s) m).2 = None.
Proof. unfold Flat.store. cases. Qed.

Lemma Flat_object_strings members m saved :
  Forall is_string members →
  (json.object Flat.fields Flat.store members m saved).2 = saved.
Proof.
  intros Hall. revert m saved.
  induction Hall as [|[key val] members [s Hs] _ IH]; intros m saved;
    simpl in *; [done|].
  subst val. destruct (json.findField Flat.fields key) as [f|]; [|apply IH].
  pose proof (Flat_store_string f s m) as He.
  destruct (Flat.store f (json.JString s) m) as [m' e]. simpl in He. subst e.
  rewrite saveError_None. apply IH.
Qed.

(** Unmarshalling what [Marshal] wrote never reports an error in the flat
    version. *)
Lemma Flat_Unmarshal_Marshal properties b m :
  json.Marshal properties = Ok b → (Flat.Unmarshal b m).2 = None.
Proof.
  destruct properties as [bag|]; intros [= <-]; simpl; [|done].
  apply Flat_object_strings, Marshal_strings.
Qed.

Lemma Marshal_total properties : ∃ b, json.Marshal properties = Ok b.
Proof. destruct properties; simpl; eauto. Qed.

Lemma Flat_Init_run {Logger W} md (s : State (Flat.HTTPSource Logger) W) :
  ∃ b m, json.Marshal (bindings.Properties md) = Ok b
    ∧ Flat.Unmarshal b Flat.zero = (m, None)
    ∧ Flat.Init md s =
        (Done None,
         {| self := {| Flat.metadata := m; Flat.logger := Flat.logger (self s) |};
            world := world s; trace := trace s |}).
Proof.
  destruct (Marshal_total (bindings.Properties md)) as [b Hb].
  pose proof (Flat_Unmarshal_Marshal _ b Flat.zero Hb) as He.
  destruct (Flat.Unmarshal b Flat.zero) as [m e] eqn:Hu. simpl in He. subst e.
  exists b, m. split_and!; [done..|].
  unfold Flat.Init. rewrite Hb, Hu. done.
Qed.

Lemma Flat_store_fields f s m :
  let m' := (Flat.store f (json.JString s) m).1 in
  Flat.URL m' = (if String.eqb f "url" then s else Flat.URL m)
  ∧ Flat.Method m' = (if String.eqb f "method" then s else Flat.Method m).
Proof. unfold Flat.store. eqb_cases; done. Qed.

Lemma Nested_store_fields f s m :
  let m' := (Nested.store f (json.JString s) m).1 in
  Nested.URL m' = (if String.eqb f "url" then s else Nested.URL m)
  ∧ Nested.Method m' = (if String.eqb f "method" then s else Nested.Method m).
Proof.
  unfold Nested.store, Nested.storeCredentials. eqb_cases; done.
Qed.

Section object.
Context {T : Type} (names : list string)
  (store : string → json.value → T → T * option error).

(** A saved error is never dropped. *)
Lemma object_saved members t e :
  (json.object names store members t (Some e)).2 = Some e.
Proof.
  revert t. induction members as [|[key v] members IH]; intros t; [done|].
  simpl. destruct (json.findField names key); [|apply IH].
  destruct (store _ v t). apply IH.
Qed.

(** A string field whose members are all empty stays empty. *)
Lemma object_field_empty (proj : T → string) name members t saved :
  (∀ f s t, proj (store f (json.JString s) t).1
            = if String.eqb f name then s else proj t) →
  Forall is_string members →
  Forall (empty_for name) members →
  proj t = "" →
  proj (json.object names store members t saved).1 = "".
Proof.
  intros Hstore Hstr. revert t saved.
  induction Hstr as [|[key v] members [s Hs] _ IH]; intros t saved Hall Ht;
    [done|].
  apply Forall_cons in Hall as [Hhd Hall]. simpl in *. subst v.
  destruct (json.findField names key) as [f|] eqn:Hf; [|by apply IH].
  apply findField_fold in Hf as [_ Hfold].
  specialize (Hstore f s t).
  destruct (store f (json.JString s) t) as [t' e]. simpl in Hstore.
  apply IH; [done|]. rewrite Hstore.
  destruct (String.eqb_spec f name) as [->|]; [|done].
  specialize (Hhd Hfold). simpl in Hhd. by simplify_eq.
Qed.
End object.

Lemma findField_credentials key :
  json.equalFold "credentials" key = true →
  json.findField Nested.fields key = Some "credentials".
Proof.
  intros Hfold. unfold json.findField, Nested.fields. simpl.
  eqb_cases; try done.
  unfold json.equalFold in *.
  destruct (String.eqb_spec (json.foldName "url") (json.foldName key))
    as [Heq|_].
  { rewrite <-Heq in Hfold. done. }
  destruct (String.eqb_spec (json.foldName "method") (json.foldName key))
    as [Heq|_].
  { rewrite <-Heq in Hfold. done. }
  by rewrite Hfold.
Qed.

Lemma Nested_object_strings members m saved :
  Forall is_string members →
  Forall (λ kv, json.equalFold "credentials" kv.1 ≠ true) members →
  (json.object Nested.fields Nested.store members m saved).2 = saved.
Proof.
  intros Hstr. revert m saved.
  induction Hstr as [|[key v] members [s Hs] _ IH]; intros m saved Hall;
    [done|].
  apply Forall_cons in Hall as [Hhd Hall]. simpl in *. subst v.
  destruct (json.findField Nested.fields key) as [f|] eqn:Hf; [|by apply IH].
  apply findField_fold in Hf as [Hin Hfold].
  assert ((Nested.store f (json.JString s) m).2 = None) as He.
  { unfold Nested.fields in Hin. set_unfold in Hin.
    destruct Hin as [->|[->|[->|[]]]]; done. }
  destruct (Nested.store f (json.JString s) m) as [m' e]. simpl in He. subst e.
  rewrite saveError_None. by apply IH.
Qed.

Lemma Nested_object_credentials members m saved key s :
  (key, json.JString s) ∈ members →
  json.equalFold "credentials" key = true →
  (json.object Nested.fields Nested.store members m saved).2 ≠ None.
Proof.
  intros Hin Hfold. revert m saved.
  induction members as [|[key' v] members IH]; intros m saved;
    [by apply elem_of_nil in Hin|].
  simpl. apply elem_of_cons in Hin as [[= <- <-]|Hin].
  - rewrite (findField_credentials key Hfold). simpl.
    destruct saved as [e|]; simpl; by rewrite object_saved.
  - destruct (json.findField Nested.fields key'); [|by apply IH].
    destruct (Nested.store _ v m). by apply IH.
Qed.

Lemma Marshal_empty_for name (bag : gmap string string) :
  missing_or_empty name (Some bag) →
  Forall (empty_for name) ((λ kv : string * string,
      (json.encodedString kv.1, json.JString (json.encodedString kv.2)))
        <$> json.sortedEntries bag).
Proof.
  intros Hempty. apply Forall_forall.
  intros [key val] (k & v & Hk & -> & ->)%Marshal_members Hfold.
  simpl in *. by rewrite (Hempty k v Hk Hfold).
Qed.

Lemma Flat_Unmarshal_empty properties b m :
  json.Marshal properties = Ok b →
  Flat.Unmarshal b Flat.zero = (m, None) →
  (missing_or_empty "url" properties → Flat.URL m = "")
  ∧ (missing_or_empty "method" properties → Flat.Method m = "").
Proof.
  destruct properties as [bag|]; intros [= <-]; simpl;
    [|by intros [= <-]].
  intros Hm.
  split; intros Hempty; apply (f_equal fst) in Hm; simpl in Hm; subst m.
  - apply (object_field_empty _ _ Flat.URL "url");
      [apply Flat_store_fields|apply Marshal_strings
      |by apply Marshal_empty_for|done].
  - apply (object_field_empty _ _ Flat.Method "method");
      [apply Flat_store_fields|apply Marshal_strings
      |by apply Marshal_empty_for|done].
Qed.

Lemma Nested_Unmarshal_empty properties b m :
  json.Marshal properties = Ok b →
  Nested.Unmarshal b Nested.zero = (m, None) →
  (missing_or_empty "url" properties → Nested.URL m = "")
  ∧ (missing_or_empty "method" properties → Nested.Method m = "").
Proof.
  destruct properties as [bag|]; intros [= <-]; simpl;
    [|by intros [= <-]].
  intros Hm.
  split; intros Hempty; apply (f_equal fst) in Hm; simpl in Hm; subst m.
  - apply (object_field_empty _ _ Nested.URL "url");
      [apply Nested_store_fields|apply Marshal_strings
      |by apply Marshal_empty_for|done].
  - apply (object_field_empty _ _ Nested.Method "method");
      [apply Nested_store_fields|apply Marshal_strings
      |by apply Marshal_empty_for|done].
Qed.

(** The nested version reports an error exactly when some property is
    decoded into the [credentials] field: a property is a string, and the
    field wants an object. *)
Lemma Nested_Unmarshal_Marshal properties b :
  json.Marshal properties = Ok b →
  (Nested.Unmarshal b Nested.zero).2 = None ↔ missing "credentials" properties.
Proof.
  destruct properties as [bag|]; intros [= <-]; simpl.
  2: { split; [|done]. intros _. apply map_Forall_empty. }
  split.
  - intros Hnone k v Hk Hfold. simpl in Hk.
    eapply Nested_object_credentials; [|exact Hfold|exact Hnone].
    apply list_elem_of_fmap. exists (k, v). split; [done|].
    by apply sortedEntries_elem.
  - intros Hmiss. apply Nested_object_strings; [apply Marshal_strings|].
    apply Forall_forall.
    intros [key val] (k & v & Hk & -> & ->)%Marshal_members. simpl.
    by apply (Hmiss k v).
Qed.

Lemma Nested_Init_run {Logger W} md (s : State (Nested.HTTPSource Logger) W) :
  missing "credentials" (bindings.Properties md) →
  ∃ b m, json.Marshal (bindings.Properties md) = Ok b
    ∧ Nested.Unmarshal b Nested.zero = (m, None)
    ∧ Nested.Init md s =
        (Done None,
         {| self := {| Nested.metadata := m;
                       Nested.logger := Nested.logger (self s) |};
            world := world s; trace := trace s |}).
Proof.
  intros Hmiss.
  destruct (Marshal_total (bindings.Properties md)) as [b Hb].
  apply (Nested_Unmarshal_Marshal _ b Hb) in Hmiss.
  destruct (Nested.Unmarshal b Nested.zero) as [m e] eqn:Hu. simpl in Hmiss.
  subst e. exists b, m. split_and!; [done..|].
  unfold Nested.Init. rewrite Hb, Hu. done.
Qed.

(** With such a property, [Init] returns the error and leaves the binding
    as it was. *)
Lemma Nested_Init_credentials {Logger W} md
    (s : State (Nested.HTTPSource Logger) W) :
  ¬ missing "credentials" (bindings.Properties md) →
  ∃ err, Nested.Init md s = (Done (Some err), s).
Proof.
  intros Hmiss.
  destruct (Marshal_total (bindings.Properties md)) as [b Hb].
  rewrite <-(Nested_Unmarshal_Marshal _ b Hb) in Hmiss.
  unfold Nested.Init. rewrite Hb.
  destruct (Nested.Unmarshal b Nested.zero) as [m [err|]]; [|done].
  by exists err.
Qed.

(** ** Initialization *)

(** C9.  In the version with flat [user] and [password] fields, [Init]
    returns no error whatever the property bag (a map from strings to
    strings, possibly nil): marshalling it succeeds, unmarshalling the result
    into [httpMetadata] reports no error, and [Init] returns nil. *)
Theorem Flat_Init_never_fails {Logger W} (md : bindings.Metadata)
    (s : State (Flat.HTTPSource Logger) W) :
  (∃ b, json.Marshal (bindings.Properties md) = Ok b
        ∧ (Flat.Unmarshal b Flat.zero).2 = None)
  ∧ (Flat.Init md s).1 = Done None.
Proof.
  destruct (Flat_Init_run md s) as (b & m & Hb & Hu & Hinit).
  split; [exists b; by rewrite Hu|by rewrite Hinit].
Qed.

Lemma Init_stores_empty_fields_example :
  (Flat.Init (Sample.bag [("URL", ""); ("user", "a"); ("password", "b")])
     (Sample.flat Flat.zero)).2
  = Sample.flat {| Flat.URL := ""; Flat.Method := "";
                   Flat.User := "a"; Flat.Password := "b" |}.
Proof. reflexivity. Qed.

(** ** The descriptor after initialization *)

(** C8.  Whatever calls of [Read], [Invoke] and [Operations] follow an
    [Init], the binding's metadata (url, method, user and password) after
    them is the metadata [Init] left. *)
Theorem descriptor_unchanged_by_calls {Logger W} (env : Env W)
    (md : bindings.Metadata) (calls : list (Call W))
    (s : State (Flat.HTTPSource Logger) W) :
  let s1 := (Flat.Init md s).2 in
  Flat.metadata (self (foldl (λ s c, Flat_call env c s) s1 calls))
  = Flat.metadata (self s1).
Proof.
  intros s1. generalize s1. clear s1 s md.
  induction calls as [|c calls IH]; intros s; simpl; [done|].
  by rewrite IH, Flat_call_self.
Qed.

(** The same holds of the nested version. *)
Lemma Nested_descriptor_unchanged_by_calls {Logger W} (env : Env W)
    (calls : list (Call W)) (s : State (Nested.HTTPSource Logger) W) :
  Nested.metadata (self (foldl (λ s c, Nested_call env c s) s calls))
  = Nested.metadata (self s).
Proof.
  revert s. induction calls as [|c calls IH]; intros s; simpl; [done|].
  by rewrite IH, Nested_call_self.
Qed.

(** ** What a call does, case by case *)

Section summaries.
Context {Logger W : Type} (env : Env W).

Lemma Flat_get_run url (s : State (Flat.HTTPSource Logger) W) :
  let client := {| http.Timeout := 60 |} in
  Flat.get env url s =
    match http.NewRequest (url_Parse env) "GET" url None with
    | Err err => (Done (Err err), s)
    | Ok req =>
        let req := Flat.addCredentials req
                     (Flat.User (Flat.metadata (self s)))
                     (Flat.Password (Flat.metadata (self s))) in
        let after w t := {| self := self s; world := w;
                            trace := trace s ++ EvDo client req :: t |} in
        match roundTrip env client req (world s) with
        | (Err err, w) => (Done (Err err), after w [])
        | (Ok resp, w) =>
            match http.RespBody resp with
            | None => (Panic, after w [])
            | Some body =>
                match http.readErr body with
                | Some err => (Done (Err err), after w [EvReadAll body])
                | None => (Done (Ok (http.content body)),
                           after w [EvReadAll body; EvClose body])
                end
            end
        end
    end.
Proof.
  destruct s as [h w t]. unfold Flat.get. go; by rewrite <-?app_assoc.
Qed.

Lemma Flat_Read_run handler (s : State (Flat.HTTPSource Logger) W) :
  Flat.Read env handler s =
    match Flat.get env (Flat.URL (Flat.metadata (self s))) s with
    | (Done (Ok b), s1) =>
        let resp := {| bindings.read_Data := b |} in
        (Done None,
         {| self := self s1; world := (handler resp (world s1)).2;
            trace := trace s1 ++ [EvHandler resp] |})
    | (Done (Err err), s1) => (Done (Some err), s1)
    | (Panic, s1) => (Panic, s1)
    end.
Proof.
  unfold Flat.Read. run.
  destruct (Flat.get env _ s) as [[[b|err]|] s1]; try done.
  run. by destruct (handler _ _).
Qed.

Lemma Flat_Invoke_run req (s : State (Flat.HTTPSource Logger) W) :
  let client := {| http.Timeout := 5 |} in
  let m := Flat.metadata (self s) in
  Flat.Invoke env req s =
    match http.NewRequest (url_Parse env) (Flat.Method m) (Flat.URL m)
            (Some (bindings.Data req)) with
    | Err err => (Done (Err err), s)
    | Ok r =>
        let r := Flat.addCredentials
                   (http.Header_Set "Content-Type"
                      "application/json; charset=utf-8" r)
                   (Flat.User m) (Flat.Password m) in
        let after w t := {| self := self s; world := w;
                            trace := trace s ++ EvDo client r :: t |} in
        match roundTrip env client r (world s) with
        | (Err err, w) => (Done (Err err), after w [])
        | (Ok resp, w) =>
            let status : gmap string string :=
              {["status" := http.Status resp]} in
            match http.RespBody resp with
            | None =>
                (Done (Ok (Some {| bindings.resp_Data := "";
                                   bindings.resp_Metadata := status |})),
                 after w [])
            | Some body =>
                match http.readErr body with
                | Some err => (Done (Err err), after w [EvReadAll body])
                | None =>
                    (Done (Ok (Some
                       {| bindings.resp_Data := http.content body;
                          bindings.resp_Metadata := status |})),
                     after w [EvReadAll body; EvClose body])
                end
            end
        end
    end.
Proof.
  destruct s as [h w t]. unfold Flat.Invoke. go; by rewrite <-?app_assoc.
Qed.

Lemma Nested_get_run url (s : State (Nested.HTTPSource Logger) W) :
  let client := {| http.Timeout := 60 |} in
  Nested.get env url s =
    match http.NewRequest (url_Parse env) "GET" url None with
    | Err err => (Done (Err err), s)
    | Ok req =>
        let req := Nested.addCredentials req
                     (Nested.Credentials (Nested.metadata (self s))) in
        let after w t := {| self := self s; world := w;
                            trace := trace s ++ EvDo client req :: t |} in
        match roundTrip env client req (world s) with
        | (Err err, w) => (Done (Err err), after w [])
        | (Ok resp, w) =>
            match http.RespBody resp with
            | None => (Panic, after w [])
            | Some body =>
                match http.readErr body with
                | Some err => (Done (Err err), after w [EvReadAll body])
                | None => (Done (Ok (http.content body)),
                           after w [EvReadAll body; EvClose body])
                end
            end
        end
    end.
Proof.
  destruct s as [h w t]. unfold Nested.get. go; by rewrite <-?app_assoc.
Qed.

Lemma Nested_Read_run handler (s : State (Nested.HTTPSource Logger) W) :
  Nested.Read env handler s =
    match Nested.get env (Nested.URL (Nested.metadata (self s))) s with
    | (Done (Ok b), s1) =>
        let resp := {| bindings.read_Data := b |} in
        (Done None,
         {| self := self s1; world := (handler resp (world s1)).2;
            trace := trace s1 ++ [EvHandler resp] |})
    | (Done (Err err), s1) => (Done (Some err), s1)
    | (Panic, s1) => (Panic, s1)
    end.
Proof.
  unfold Nested.Read. run.
  destruct (Nested.get env _ s) as [[[b|err]|] s1]; try done.
  run. by destruct (handler _ _).
Qed.

Lemma Nested_Invoke_run req (s : State (Nested.HTTPSource Logger) W) :
  let client := {| http.Timeout := 5 |} in
  let m := Nested.metadata (self s) in
  Nested.Invoke env req s =
    match http.NewRequest (url_Parse env) "POST" (Nested.URL m)
            (Some (bindings.Data req)) with
    | Err err => (Done (Err err), s)
    | Ok r =>
        let r := Nested.addCredentials
                   (http.Header_Set "Content-Type"
                      "application/json; charset=utf-8" r)
                   (Nested.Credentials m) in
        let after w t := {| self := self s; world := w;
                            trace := trace s ++ EvDo client r :: t |} in
        match roundTrip env client r (world s) with
        | (Err err, w) => (Done (Err err), after w [])
        | (Ok resp, w) =>
            match http.RespBody resp with
            | None => (Done (Ok None), after w [])
            | Some body => (Done (Ok None), after w [EvClose body])
            end
        end
    end.
Proof.
  destruct s as [h w t]. unfold Nested.Invoke. go; by rewrite <-?app_assoc.
Qed.
End summaries.

(** ** Requests *)

Lemma NewRequest_GET url_Parse url :
  http.NewRequest url_Parse "GET" url None =
    match url_Parse url with
    | Some err => Err err
    | None => Ok {| http.Method := "GET"; http.URL := url;
                    http.Header := ∅; http.Body := None |}
    end.
Proof. reflexivity. Qed.

Lemma NewRequest_POST url_Parse url body :
  http.NewRequest url_Parse "POST" url body =
    match url_Parse url with
    | Some err => Err err
    | None => Ok {| http.Method := "POST"; http.URL := url;
                    http.Header := ∅; http.Body := body |}
    end.
Proof. reflexivity. Qed.

Lemma NewRequest_Ok url_Parse method url body r :
  http.NewRequest url_Parse method url body = Ok r →
  r = {| http.Method := if String.eqb method "" then "GET" else method;
         http.URL := url; http.Header := ∅; http.Body := body |}
  ∧ url_Parse url = None.
Proof. unfold http.NewRequest. cases; by intros [= <-]. Qed.

Lemma Flat_addCredentials_target req user password :
  http.Method (Flat.addCredentials req user password) = http.Method req
  ∧ http.URL (Flat.addCredentials req user password) = http.URL req
  ∧ http.Body (Flat.addCredentials req user password) = http.Body req.
Proof. unfold Flat.addCredentials. cases. Qed.

Lemma Nested_addCredentials_target req credentials :
  http.Method (Nested.addCredentials req credentials) = http.Method req
  ∧ http.URL (Nested.addCredentials req credentials) = http.URL req
  ∧ http.Body (Nested.addCredentials req credentials) = http.Body req.
Proof. unfold Nested.addCredentials. cases. Qed.

Lemma during_eq {H W A} (m : M H W A) (s : State H W) t :
  trace (m s).2 = trace s ++ t → during m s = t.
Proof. unfold during. intros ->. apply drop_app_length. Qed.

Lemma during_nil {H W A} (m : M H W A) (s : State H W) :
  (m s).2 = s → during m s = [].
Proof. unfold during. intros ->. apply drop_all. Qed.

(** The log of a call, case by case. *)
Section logs.
Context {Logger W : Type} (env : Env W).

Lemma Flat_get_during url (s : State (Flat.HTTPSource Logger) W) :
  let client := {| http.Timeout := 60 |} in
  during (Flat.get env url) s =
    match http.NewRequest (url_Parse env) "GET" url None with
    | Err _ => []
    | Ok req =>
        let req := Flat.addCredentials req
                     (Flat.User (Flat.metadata (self s)))
                     (Flat.Password (Flat.metadata (self s))) in
        EvDo client req :: reading env client req (world s) (λ _, [])
    end.
Proof.
  intros client. subst client. unfold reading.
  destruct (http.NewRequest _ _ _ _) as [req|err] eqn:Hreq.
  - apply during_eq. rewrite Flat_get_run, Hreq. simpl.
    destruct (roundTrip env _ _ _) as [[resp|err] w]; simpl; cases.
  - apply during_nil. by rewrite Flat_get_run, Hreq.
Qed.

Lemma Flat_Read_during handler (s : State (Flat.HTTPSource Logger) W) :
  let client := {| http.Timeout := 60 |} in
  let m := Flat.metadata (self s) in
  during (Flat.Read env handler) s =
    match http.NewRequest (url_Parse env) "GET" (Flat.URL m) None with
    | Err _ => []
    | Ok req =>
        let req := Flat.addCredentials req (Flat.User m) (Flat.Password m) in
        EvDo client req ::
        reading env client req (world s)
          (λ body, [EvHandler {| bindings.read_Data := http.content body |}])
    end.
Proof.
  intros client m. subst client m. unfold reading.
  destruct (http.NewRequest _ _ _ _) as [req|err] eqn:Hreq.
  - apply during_eq. rewrite Flat_Read_run, Flat_get_run, Hreq. simpl.
    destruct (roundTrip env _ _ _) as [[resp|err] w]; simpl; cases.
    simpl. by rewrite <-app_assoc.
  - apply during_nil. by rewrite Flat_Read_run, Flat_get_run, Hreq.
Qed.

Lemma Flat_Invoke_during req (s : State (Flat.HTTPSource Logger) W) :
  let client := {| http.Timeout := 5 |} in
  let m := Flat.metadata (self s) in
  during (Flat.Invoke env req) s =
    match http.NewRequest (url_Parse env) (Flat.Method m) (Flat.URL m)
            (Some (bindings.Data req)) with
    | Err _ => []
    | Ok r =>
        let r := Flat.addCredentials
                   (http.Header_Set "Content-Type"
                      "application/json; charset=utf-8" r)
                   (Flat.User m) (Flat.Password m) in
        EvDo client r :: reading env client r (world s) (λ _, [])
    end.
Proof.
  intros client m. subst client m. unfold reading.
  destruct (http.NewRequest _ _ _ _) as [r|err] eqn:Hreq.
  - apply during_eq. rewrite Flat_Invoke_run, Hreq. simpl.
    destruct (roundTrip env _ _ _) as [[resp|err] w]; simpl; cases.
  - apply during_nil. by rewrite Flat_Invoke_run, Hreq.
Qed.

Lemma Nested_get_during url (s : State (Nested.HTTPSource Logger) W) :
  let client := {| http.Timeout := 60 |} in
  during (Nested.get env url) s =
    match http.NewRequest (url_Parse env) "GET" url None with
    | Err _ => []
    | Ok req =>
        let req := Nested.addCredentials req
                     (Nested.Credentials (Nested.metadata (self s))) in
        EvDo client req :: reading env client req (world s) (λ _, [])
    end.
Proof.
  intros client. subst client. unfold reading.
  destruct (http.NewRequest _ _ _ _) as [req|err] eqn:Hreq.
  - apply during_eq. rewrite Nested_get_run, Hreq. simpl.
    destruct (roundTrip env _ _ _) as [[resp|err] w]; simpl; cases.
  - apply during_nil. by rewrite Nested_get_run, Hreq.
Qed.

Lemma Nested_Read_during handler (s : State (Nested.HTTPSource Logger) W) :
  let client := {| http.Timeout := 60 |} in
  let m := Nested.metadata (self s) in
  during (Nested.Read env handler) s =
    match http.NewRequest (url_Parse env) "GET" (Nested.URL m) None with
    | Err _ => []
    | Ok req =>
        let req := Nested.addCredentials req (Nested.Credentials m) in
        EvDo client req ::
        reading env client req (world s)
          (λ body, [EvHandler {| bindings.read_Data := http.content body |}])
    end.
Proof.
  intros client m. subst client m. unfold reading.
  destruct (http.NewRequest _ _ _ _) as [req|err] eqn:Hreq.
  - apply during_eq. rewrite Nested_Read_run, Nested_get_run, Hreq. simpl.
    destruct (roundTrip env _ _ _) as [[resp|err] w]; simpl; cases.
    simpl. by rewrite <-app_assoc.
  - apply during_nil. by rewrite Nested_Read_run, Nested_get_run, Hreq.
Qed.

Lemma Nested_Invoke_during req (s : State (Nested.HTTPSource Logger) W) :
  let client := {| http.Timeout := 5 |} in
  let m := Nested.metadata (self s) in
  during (Nested.Invoke env req) s =
    match http.NewRequest (url_Parse env) "POST" (Nested.URL m)
            (Some (bindings.Data req)) with
    | Err _ => []
    | Ok r =>
        let r := Nested.addCredentials
                   (http.Header_Set "Content-Type"
                      "application/json; charset=utf-8" r)
                   (Nested.Credentials m) in
        EvDo client r ::
        match (roundTrip env client r (world s)).1 with
        | Err _ => []
        | Ok resp =>
            match http.RespBody resp with
            | None => []
            | Some body => [EvClose body]
            end
        end
    end.
Proof.
  intros client m. subst client m.
  destruct (http.NewRequest _ _ _ _) as [r|err] eqn:Hreq.
  - apply during_eq. rewrite Nested_Invoke_run, Hreq. simpl.
    destruct (roundTrip env _ _ _) as [[resp|err] w]; simpl; cases.
  - apply during_nil. by rewrite Nested_Invoke_run, Hreq.
Qed.
End logs.

Lemma requests_reading {W} (env : Env W) client req w last :
  (∀ body, requests (last body) = []) →
  requests (reading env client req w last) = [].
Proof. intros Hlast. unfold reading. cases; simpl; by rewrite ?Hlast. Qed.

Section requests.
Context {Logger W : Type} (env : Env W).

Lemma Flat_Read_requests handler (s : State (Flat.HTTPSource Logger) W) :
  let m := Flat.metadata (self s) in
  requests (during (Flat.Read env handler) s) =
    match url_Parse env (Flat.URL m) with
    | Some _ => []
    | None =>
        [Flat.addCredentials
           {| http.Method := "GET"; http.URL := Flat.URL m;
              http.Header := ∅; http.Body := None |}
           (Flat.User m) (Flat.Password m)]
    end.
Proof.
  intros m. subst m. rewrite Flat_Read_during, NewRequest_GET.
  destruct (url_Parse env _); simpl; [done|].
  by rewrite requests_reading.
Qed.

Lemma Nested_Read_requests handler
    (s : State (Nested.HTTPSource Logger) W) :
  let m := Nested.metadata (self s) in
  requests (during (Nested.Read env handler) s) =
    match url_Parse env (Nested.URL m) with
    | Some _ => []
    | None =>
        [Nested.addCredentials
           {| http.Method := "GET"; http.URL := Nested.URL m;
              http.Header := ∅; http.Body := None |}
           (Nested.Credentials m)]
    end.
Proof.
  intros m. subst m. rewrite Nested_Read_during, NewRequest_GET.
  destruct (url_Parse env _); simpl; [done|].
  by rewrite requests_reading.
Qed.

Lemma Flat_Invoke_requests req (s : State (Flat.HTTPSource Logger) W) :
  let m := Flat.metadata (self s) in
  requests (during (Flat.Invoke env req) s) =
    match http.NewRequest (url_Parse env) (Flat.Method m) (Flat.URL m)
            (Some (bindings.Data req)) with
    | Err _ => []
    | Ok r =>
        [Flat.addCredentials
           (http.Header_Set "Content-Type"
              "application/json; charset=utf-8" r)
           (Flat.User m) (Flat.Password m)]
    end.
Proof.
  intros m. subst m. rewrite Flat_Invoke_during.
  destruct (http.NewRequest _ _ _ _); simpl; [|done].
  by rewrite requests_reading.
Qed.

Lemma Nested_Invoke_requests req (s : State (Nested.HTTPSource Logger) W) :
  let m := Nested.metadata (self s) in
  requests (during (Nested.Invoke env req) s) =
    match url_Parse env (Nested.URL m) with
    | Some _ => []
    | None =>
        [Nested.addCredentials
           (http.Header_Set "Content-Type"
              "application/json; charset=utf-8"
              {| http.Method := "POST"; http.URL := Nested.URL m;
                 http.Header := ∅;
                 http.Body := Some (bindings.Data req) |})
           (Nested.Credentials m)]
    end.
Proof.
  intros m. subst m. rewrite Nested_Invoke_during, NewRequest_POST.
  destruct (url_Parse env _); simpl; [done|]. cases.
Qed.
End requests.

(** ** The method and target of a request *)

(** C5.  [Read] hands the transport one request when the descriptor's url
    parses and none when it does not; every request it hands over has
    method GET and the descriptor's url as its target, whatever the
    descriptor's method.  This holds of both versions. *)
Theorem Read_issues_GET {Logger W} (env : Env W) (handler : Handler W)
    (sF : State (Flat.HTTPSource Logger) W)
    (sN : State (Nested.HTTPSource Logger) W) :
  let urlF := Flat.URL (Flat.metadata (self sF)) in
  let urlN := Nested.URL (Nested.metadata (self sN)) in
  let issuedF := requests (during (Flat.Read env handler) sF) in
  let issuedN := requests (during (Nested.Read env handler) sN) in
  Forall (λ r, http.Method r = "GET" ∧ http.URL r = urlF) issuedF
  ∧ length issuedF = (if url_Parse env urlF is None then 1 else 0)
  ∧ Forall (λ r, http.Method r = "GET" ∧ http.URL r = urlN) issuedN
  ∧ length issuedN = (if url_Parse env urlN is None then 1 else 0).
Proof.
  intros urlF urlN issuedF issuedN. subst urlF urlN issuedF issuedN.
  rewrite Flat_Read_requests, Nested_Read_requests.
  destruct (url_Parse env (Flat.URL _)), (url_Parse env (Nested.URL _));
    simpl; split_and!; try done;
    repeat constructor;
    try apply Flat_addCredentials_target;
    try apply Nested_addCredentials_target.
Qed.

(** In the flat version [Invoke] passes the descriptor's method to
    [http.NewRequest]: the request goes out with that method, or with GET
    when the method is empty. *)
Lemma Flat_Invoke_method {Logger W} (env : Env W) req
    (s : State (Flat.HTTPSource Logger) W) :
  let m := Flat.metadata (self s) in
  Forall (λ r, http.Method r
               = (if String.eqb (Flat.Method m) "" then "GET"
                  else Flat.Method m)
               ∧ http.URL r = Flat.URL m
               ∧ http.Body r = Some (bindings.Data req))
    (requests (during (Flat.Invoke env req) s)).
Proof.
  intros m. subst m. rewrite Flat_Invoke_requests.
  destruct (http.NewRequest _ _ _ _) as [r|err] eqn:Hreq; [|constructor].
  apply NewRequest_Ok in Hreq as [-> _]. repeat constructor.
  - by rewrite (proj1 (Flat_addCredentials_target _ _ _)).
  - by rewrite (proj1 (proj2 (Flat_addCredentials_target _ _ _))).
  - by rewrite (proj2 (proj2 (Flat_addCredentials_target _ _ _))).
Qed.

(** In the nested version [Invoke] posts, whatever the descriptor's
    method. *)
Lemma Nested_Invoke_method {Logger W} (env : Env W) req
    (s : State (Nested.HTTPSource Logger) W) :
  Forall (λ r, http.Method r = "POST")
    (requests (during (Nested.Invoke env req) s)).
Proof.
  rewrite Nested_Invoke_requests. destruct (url_Parse env _); repeat constructor.
  by rewrite (proj1 (Nested_addCredentials_target _ _)).
Qed.

(** C1.  The nested version, initialized with method PUT, stores PUT in
    its descriptor and sends a POST; the flat version, initialized with the
    same properties, sends a PUT. *)
Theorem Nested_Invoke_ignores_method :
  let properties := Sample.bag [("url", "http://x/api"); ("method", "PUT")] in
  let env := Sample.answering "200 OK" (Sample.body "") in
  let req := {| bindings.Data := "{}" |} in
  let sN := (Nested.Init properties (Sample.nested Nested.zero)).2 in
  let sF := (Flat.Init properties (Sample.flat Flat.zero)).2 in
  Nested.Method (Nested.metadata (self sN)) = "PUT"
  ∧ http.Method <$> requests (during (Nested.Invoke env req) sN) = ["POST"]
  ∧ Flat.Method (Flat.metadata (self sF)) = "PUT"
  ∧ http.Method <$> requests (during (Flat.Invoke env req) sF) = ["PUT"].
Proof. repeat split; reflexivity. Qed.

(** ** The result of [Invoke] *)

(** The counterexample to C2: the endpoint answers [200 OK], reading the
    body of the answer fails, and [Invoke] of the flat version returns the
    read error, not a result with a status. *)
Lemma Invoke_fails_on_unreadable_body :
  let env := Sample.answering "200 OK" Sample.brokenBody in
  let req := {| bindings.Data := "{}" |} in
  let s := Sample.flat {| Flat.URL := "http://x/api"; Flat.Method := "POST";
                          Flat.User := ""; Flat.Password := "" |} in
  (∃ client r w,
     EvDo client r ∈ during (Flat.Invoke env req) s
     ∧ roundTrip env client r (world s) =
         (Ok {| http.Status := "200 OK";
                http.RespBody := Some Sample.brokenBody |}, w))
  ∧ (Flat.Invoke env req s).1 = Done (Err (ExternalError "unexpected EOF")).
Proof.
  intros env req s. split; [|reflexivity].
  eexists _, _, _. split; [|reflexivity].
  vm_compute. apply list_elem_of_here.
Qed.

(** C2, amended.  Take an [Invoke] whose request the transport answers
    with a response, of whatever status.  In the flat version: when the
    response has no body, or its body is read to the end, [Invoke] succeeds
    and the metadata of its result maps [status] to the status line of the
    response; when reading the body fails, [Invoke] returns the read error.
    In the nested version [Invoke] returns no error. *)
Theorem Invoke_reports_status {Logger W} (env : Env W)
    (req : bindings.InvokeRequest)
    (sF : State (Flat.HTTPSource Logger) W)
    (sN : State (Nested.HTTPSource Logger) W) :
  (∀ client r resp w,
     EvDo client r ∈ during (Flat.Invoke env req) sF →
     roundTrip env client r (world sF) = (Ok resp, w) →
     match http.RespBody resp with
     | Some {| http.content := data; http.readErr := None |} =>
         (Flat.Invoke env req sF).1 =
           Done (Ok (Some {| bindings.resp_Data := data;
                             bindings.resp_Metadata :=
                               {["status" := http.Status resp]} |}))
     | Some {| http.readErr := Some err |} =>
         (Flat.Invoke env req sF).1 = Done (Err err)
     | None =>
         (Flat.Invoke env req sF).1 =
           Done (Ok (Some {| bindings.resp_Data := "";
                             bindings.resp_Metadata :=
                               {["status" := http.Status resp]} |}))
     end)
  ∧ (∀ client r resp w,
       EvDo client r ∈ during (Nested.Invoke env req) sN →
       roundTrip env client r (world sN) = (Ok resp, w) →
       ∃ res, (Nested.Invoke env req sN).1 = Done (Ok res)).
Proof.
  split; intros client r resp w Hin Hrt.
  - rewrite Flat_Invoke_during in Hin. rewrite Flat_Invoke_run.
    destruct (http.NewRequest _ _ _ _) as [r0|err] eqn:Hreq;
      [|set_solver].
    simpl in *. apply elem_of_cons in Hin as [[= -> ->]|Hin].
    + rewrite Hrt. destruct (http.RespBody resp) as [[data [err|]]|]; done.
    + exfalso. assert (r ∈ requests
        (reading env {| http.Timeout := 5 |}
           (Flat.addCredentials
              (http.Header_Set "Content-Type"
                 "application/json; charset=utf-8" r0)
              (Flat.User (Flat.metadata (self sF)))
              (Flat.Password (Flat.metadata (self sF))))
           (world sF) (λ _, []))) as Hr.
      { unfold requests. apply list_elem_of_omap. by exists (EvDo client r). }
      rewrite requests_reading in Hr by done. by apply elem_of_nil in Hr.
  - rewrite Nested_Invoke_during in Hin. rewrite Nested_Invoke_run.
    destruct (http.NewRequest _ _ _ _) as [r0|err] eqn:Hreq;
      [|set_solver].
    simpl in *. apply elem_of_cons in Hin as [[= -> ->]|Hin].
    + rewrite Hrt. exists None. by destruct (http.RespBody resp).
    + exfalso. destruct (roundTrip env _ _ _).1 as [[? [?|]]|];
        simpl in Hin; decompose_list_elem_of; simplify_eq.
Qed.

Lemma Invoke_reports_status_witness :
  let env := Sample.answering "404 Not Found" (Sample.body "no such page") in
  let req := {| bindings.Data := "{}" |} in
  let sF := Sample.flat {| Flat.URL := "http://x/api"; Flat.Method := "PUT";
                           Flat.User := ""; Flat.Password := "" |} in
  let sN := Sample.nested {| Nested.URL := "http://x/api";
                             Nested.Method := "PUT";
                             Nested.Credentials := None |} in
  (Flat.Invoke env req sF).1 =
    Done (Ok (Some {| bindings.resp_Data := "no such page";
                      bindings.resp_Metadata :=
                        {["status" := "404 Not Found"]} |}))
  ∧ (∃ res, (Nested.Invoke env req sN).1 = Done (Ok res)).
Proof.
  intros env req sF sN.
  destruct (Invoke_reports_status env req sF sN) as [HF HN]. split.
  - eapply (HF {| http.Timeout := 5 |} _
              {| http.Status := "404 Not Found";
                 http.RespBody := Some (Sample.body "no such page") |} []);
      [|reflexivity].
    vm_compute. apply list_elem_of_here.
  - eapply (HN {| http.Timeout := 5 |} _
              {| http.Status := "404 Not Found";
                 http.RespBody := Some (Sample.body "no such page") |} []);
      [|reflexivity].
    vm_compute. apply list_elem_of_here.
Defined.

(** ** Credentials *)

Lemma Flat_addCredentials_authorized req user password :
  http.Header req !! "Authorization" = None →
  authorized user password (Flat.addCredentials req user password).
Proof.
  intros Hreq. unfold authorized, Flat.addCredentials.
  destruct (String.eqb_spec user ""), (String.eqb_spec password "");
    simpl; case_decide; try tauto; try done.
  apply lookup_insert_eq.
Qed.

Lemma Nested_addCredentials_authorized req user password :
  http.Header req !! "Authorization" = None →
  authorized user password
    (Nested.addCredentials req
       (Some {| Nested.User := user; Nested.Password := password |})).
Proof.
  intros Hreq. unfold authorized, Nested.addCredentials. simpl.
  destruct (String.eqb_spec user ""), (String.eqb_spec password "");
    simpl; case_decide; try tauto; try done.
  apply lookup_insert_eq.
Qed.

(** C3.  Every request that [Read] or [Invoke] hands to the transport
    carries [Authorization: Basic base64(user:password)] when the
    descriptor's user and password are both non-empty, and no
    [Authorization] header otherwise; in the nested version a nil
    [credentials] gives no header either.  Credentials that are absent or
    partial leave the request as it was: [addCredentials] has no failure to
    report. *)
Theorem credentials_set_Authorization {Logger W} (env : Env W)
    (handler : Handler W) (req : bindings.InvokeRequest)
    (sF : State (Flat.HTTPSource Logger) W)
    (sN : State (Nested.HTTPSource Logger) W) :
  let mF := Flat.metadata (self sF) in
  let mN := Nested.metadata (self sN) in
  Forall (authorized (Flat.User mF) (Flat.Password mF))
    (requests (during (Flat.Read env handler) sF)
     ++ requests (during (Flat.Invoke env req) sF))
  ∧ Forall (λ r, match Nested.Credentials mN with
                 | Some c => authorized (Nested.User c) (Nested.Password c) r
                 | None => http.Header r !! "Authorization" = None
                 end)
      (requests (during (Nested.Read env handler) sN)
       ++ requests (during (Nested.Invoke env req) sN))
  ∧ (∀ r user password,
       user = "" ∨ password = "" →
       Flat.addCredentials r user password = r
       ∧ Nested.addCredentials r
           (Some {| Nested.User := user; Nested.Password := password |}) = r
       ∧ Nested.addCredentials r None = r).
Proof.
  intros mF mN. subst mF mN. split_and!.
  - rewrite Flat_Read_requests, Flat_Invoke_requests. apply Forall_app. split.
    + destruct (url_Parse env _); repeat constructor.
      by apply Flat_addCredentials_authorized.
    + destruct (http.NewRequest _ _ _ _) as [r|err] eqn:Hreq;
        repeat constructor.
      apply NewRequest_Ok in Hreq as [-> _].
      by apply Flat_addCredentials_authorized.
  - rewrite Nested_Read_requests, Nested_Invoke_requests.
    apply Forall_app. split.
    + destruct (url_Parse env _); repeat constructor.
      destruct (Nested.Credentials _) as [[user password]|]; [|done].
      by apply Nested_addCredentials_authorized.
    + destruct (url_Parse env _); repeat constructor.
      destruct (Nested.Credentials _) as [[user password]|]; [|done].
      by apply Nested_addCredentials_authorized.
  - intros r user password Hempty.
    unfold Flat.addCredentials, Nested.addCredentials. simpl.
    destruct (String.eqb_spec user ""), (String.eqb_spec password "");
      simpl; try done. tauto.
Qed.

Lemma credentials_set_Authorization_witness :
  let env := Sample.answering "200 OK" (Sample.body "") in
  let req := {| bindings.Data := "{}" |} in
  let sF := Sample.flat {| Flat.URL := "http://x/api"; Flat.Method := "POST";
                           Flat.User := "a"; Flat.Password := "" |} in
  Flat.addCredentials
    {| http.Method := "GET"; http.URL := "http://x/feed";
       http.Header := ∅; http.Body := None |} "a" ""
  = {| http.Method := "GET"; http.URL := "http://x/feed";
       http.Header := ∅; http.Body := None |}.
Proof.
  intros env req sF.
  destruct (credentials_set_Authorization env Sample.keep req sF
              (Sample.nested Nested.zero)) as (_ & _ & H).
  apply (H _ "a" ""). by right.
Defined.

(** The example of the specification: user [a] and password [b] give
    [Authorization: Basic YTpi] on the POST; a descriptor without
    credentials gives no header on the GET. *)
Example credentials_examples :
  let env := Sample.answering "200 OK" (Sample.body "") in
  (λ r, (http.Method r, http.URL r, http.Header r !! "Authorization",
         http.Body r))
    <$> requests (during
          (Flat.Invoke env {| bindings.Data := "{k:1}" |})
          (Flat.Init (Sample.bag [("url", "http://x/api"); ("method", "POST");
                                  ("user", "a"); ("password", "b")])
             (Sample.flat Flat.zero)).2)
  = [("POST", "http://x/api", Some ["Basic YTpi"], Some "{k:1}")]
  ∧ (λ r, (http.Method r, http.URL r, http.Header r !! "Authorization"))
      <$> requests (during (Flat.Read env Sample.keep)
            (Flat.Init (Sample.bag [("url", "http://x/feed")])
               (Sample.flat Flat.zero)).2)
    = [("GET", "http://x/feed", None)].
Proof. split; reflexivity. Qed.

(** ** The handler of [Read] *)

(** The counterexample to C4: the GET succeeds, the handler reports a
    failure, and [Read] returns nil, in both versions. *)
Lemma Read_drops_handler_error :
  let env := Sample.answering "200 OK" (Sample.body "data") in
  let sF := Sample.flat {| Flat.URL := "http://x/feed"; Flat.Method := "";
                           Flat.User := ""; Flat.Password := "" |} in
  let sN := Sample.nested {| Nested.URL := "http://x/feed";
                             Nested.Method := "";
                             Nested.Credentials := None |} in
  (Flat.get env "http://x/feed" sF).1 = Done (Ok "data")
  ∧ (Nested.get env "http://x/feed" sN).1 = Done (Ok "data")
  ∧ (Sample.reject {| bindings.read_Data := "data" |} []).1
    = Some (ExternalError "handler failed")
  ∧ handled (during (Flat.Read env Sample.reject) sF)
    = [{| bindings.read_Data := "data" |}]
  ∧ (Flat.Read env Sample.reject sF).1 = Done None
  ∧ (Nested.Read env Sample.reject sN).1 = Done None.
Proof. repeat split; reflexivity. Qed.

(** C4, amended.  When the GET of a [Read] succeeds, [Read] returns nil
    whatever the handler returns: the value the handler returns is
    dropped. *)
Theorem Read_returns_nil_after_get {Logger W} (env : Env W)
    (handler : Handler W)
    (sF : State (Flat.HTTPSource Logger) W)
    (sN : State (Nested.HTTPSource Logger) W) :
  (∀ b s1,
     Flat.get env (Flat.URL (Flat.metadata (self sF))) sF = (Done (Ok b), s1) →
     (Flat.Read env handler sF).1 = Done None)
  ∧ (∀ b s1,
       Nested.get env (Nested.URL (Nested.metadata (self sN))) sN
         = (Done (Ok b), s1) →
       (Nested.Read env handler sN).1 = Done None).
Proof.
  split; intros b s1 Hget.
  - by rewrite Flat_Read_run, Hget.
  - by rewrite Nested_Read_run, Hget.
Qed.

Lemma Read_returns_nil_after_get_witness :
  let env := Sample.answering "200 OK" (Sample.body "data") in
  let sF := Sample.flat {| Flat.URL := "http://x/feed"; Flat.Method := "";
                           Flat.User := ""; Flat.Password := "" |} in
  let sN := Sample.nested {| Nested.URL := "http://x/feed";
                             Nested.Method := "";
                             Nested.Credentials := None |} in
  (Flat.Read env Sample.reject sF).1 = Done None
  ∧ (Nested.Read env Sample.reject sN).1 = Done None.
Proof.
  intros env sF sN.
  destruct (Read_returns_nil_after_get env Sample.reject sF sN) as [HF HN].
  split.
  - eapply (HF "data"). vm_compute. reflexivity.
  - eapply (HN "data"). vm_compute. reflexivity.
Defined.

(** C10.  When the GET of a [Read] succeeds with body [b], the handler is
    called once, with [b], after the GET, and [Read] returns nil in the
    world the handler left.  When the GET fails with [err], the handler is
    not called, and [Read] returns [err] in the state the GET left.  This
    holds of both versions. *)
Theorem Read_calls_handler_once {Logger W} (env : Env W)
    (handler : Handler W)
    (sF : State (Flat.HTTPSource Logger) W)
    (sN : State (Nested.HTTPSource Logger) W) :
  (∀ b s1,
     Flat.get env (Flat.URL (Flat.metadata (self sF))) sF = (Done (Ok b), s1) →
     let resp := {| bindings.read_Data := b |} in
     handled (during (Flat.Read env handler) sF) = [resp]
     ∧ Flat.Read env handler sF =
         (Done None,
          {| self := self s1; world := (handler resp (world s1)).2;
             trace := trace s1 ++ [EvHandler resp] |}))
  ∧ (∀ err s1,
       Flat.get env (Flat.URL (Flat.metadata (self sF))) sF
         = (Done (Err err), s1) →
       handled (during (Flat.Read env handler) sF) = []
       ∧ Flat.Read env handler sF = (Done (Some err), s1))
  ∧ (∀ b s1,
       Nested.get env (Nested.URL (Nested.metadata (self sN))) sN
         = (Done (Ok b), s1) →
       let resp := {| bindings.read_Data := b |} in
       handled (during (Nested.Read env handler) sN) = [resp]
       ∧ Nested.Read env handler sN =
           (Done None,
            {| self := self s1; world := (handler resp (world s1)).2;
               trace := trace s1 ++ [EvHandler resp] |}))
  ∧ (∀ err s1,
       Nested.get env (Nested.URL (Nested.metadata (self sN))) sN
         = (Done (Err err), s1) →
       handled (during (Nested.Read env handler) sN) = []
       ∧ Nested.Read env handler sN = (Done (Some err), s1)).
Proof.
  split_and!; intros b s1 Hget.
  - split; [|by rewrite Flat_Read_run, Hget].
    rewrite Flat_Read_during. rewrite Flat_get_run in Hget.
    unfold reading. revert Hget.
    destruct (http.NewRequest _ _ _ _); [|done]. simpl.
    destruct (roundTrip env _ _ _) as [[resp|err] w]; simpl; [|done].
    destruct (http.RespBody resp) as [[data [err|]]|]; simpl; [done| |done].
    by intros [= <- <-].
  - split; [|by rewrite Flat_Read_run, Hget].
    rewrite Flat_Read_during. rewrite Flat_get_run in Hget.
    unfold reading. revert Hget.
    destruct (http.NewRequest _ _ _ _); [|done]. simpl.
    destruct (roundTrip env _ _ _) as [[resp|err] w]; simpl; [|done].
    by destruct (http.RespBody resp) as [[data [err|]]|].
  - split; [|by rewrite Nested_Read_run, Hget].
    rewrite Nested_Read_during. rewrite Nested_get_run in Hget.
    unfold reading. revert Hget.
    destruct (http.NewRequest _ _ _ _); [|done]. simpl.
    destruct (roundTrip env _ _ _) as [[resp|err] w]; simpl; [|done].
    destruct (http.RespBody resp) as [[data [err|]]|]; simpl; [done| |done].
    by intros [= <- <-].
  - split; [|by rewrite Nested_Read_run, Hget].
    rewrite Nested_Read_during. rewrite Nested_get_run in Hget.
    unfold reading. revert Hget.
    destruct (http.NewRequest _ _ _ _); [|done]. simpl.
    destruct (roundTrip env _ _ _) as [[resp|err] w]; simpl; [|done].
    by destruct (http.RespBody resp) as [[data [err|]]|].
Qed.

Lemma Read_calls_handler_once_witness :
  let sF := Sample.flat {| Flat.URL := "http://x/feed"; Flat.Method := "";
                           Flat.User := ""; Flat.Password := "" |} in
  handled (during
    (Flat.Read (Sample.answering "200 OK" (Sample.body "data")) Sample.keep) sF)
    = [{| bindings.read_Data := "data" |}]
  ∧ world (Flat.Read (Sample.answering "200 OK" (Sample.body "data"))
             Sample.keep sF).2 = ["data"]
  ∧ handled (during (Flat.Read Sample.unreachable Sample.keep) sF) = []
  ∧ (Flat.Read Sample.unreachable Sample.keep sF).1
    = Done (Some (ExternalError "connection refused"))
  ∧ world (Flat.Read Sample.unreachable Sample.keep sF).2 = [].
Proof.
  intros sF.
  destruct (Read_calls_handler_once
              (Sample.answering "200 OK" (Sample.body "data")) Sample.keep
              sF (Sample.nested Nested.zero)) as (Hok & _).
  destruct (Read_calls_handler_once Sample.unreachable Sample.keep
              sF (Sample.nested Nested.zero)) as (_ & Herr & _).
  edestruct (Hok "data") as [-> ->]; [vm_compute; reflexivity|].
  edestruct (Herr (ExternalError "connection refused")) as [-> ->];
    [vm_compute; reflexivity|].
  repeat split.
Defined.

(** ** Closing the response body *)

Lemma closings_reading {W} (env : Env W) client req w last :
  (∀ body, closings (last body) = []) →
  closings (reading env client req w last) =
    match (roundTrip env client req w).1 with
    | Ok {| http.RespBody := Some body |} =>
        if http.readErr body is None then [body] else []
    | _ => []
    end.
Proof. intros Hlast. unfold reading. cases; simpl; by rewrite ?Hlast. Qed.

(** [Read], in both versions, and [Invoke] in the flat version close the
    body of the response only when reading it succeeded. *)
Lemma Flat_Read_closings {Logger W} (env : Env W) (handler : Handler W)
    (s : State (Flat.HTTPSource Logger) W) :
  let m := Flat.metadata (self s) in
  closings (during (Flat.Read env handler) s) =
    match http.NewRequest (url_Parse env) "GET" (Flat.URL m) None with
    | Err _ => []
    | Ok r =>
        let r := Flat.addCredentials r (Flat.User m) (Flat.Password m) in
        match (roundTrip env {| http.Timeout := 60 |} r (world s)).1 with
        | Ok {| http.RespBody := Some body |} =>
            if http.readErr body is None then [body] else []
        | _ => []
        end
    end.
Proof.
  intros m. subst m. rewrite Flat_Read_during.
  destruct (http.NewRequest _ _ _ _); simpl; [|done].
  by rewrite closings_reading.
Qed.

Lemma Flat_Invoke_closings {Logger W} (env : Env W)
    (req : bindings.InvokeRequest) (s : State (Flat.HTTPSource Logger) W) :
  let m := Flat.metadata (self s) in
  closings (during (Flat.Invoke env req) s) =
    match http.NewRequest (url_Parse env) (Flat.Method m) (Flat.URL m)
            (Some (bindings.Data req)) with
    | Err _ => []
    | Ok r =>
        let r := Flat.addCredentials
                   (http.Header_Set "Content-Type"
                      "application/json; charset=utf-8" r)
                   (Flat.User m) (Flat.Password m) in
        match (roundTrip env {| http.Timeout := 5 |} r (world s)).1 with
        | Ok {| http.RespBody := Some body |} =>
            if http.readErr body is None then [body] else []
        | _ => []
        end
    end.
Proof.
  intros m. subst m. rewrite Flat_Invoke_during.
  destruct (http.NewRequest _ _ _ _); simpl; [|done].
  by rewrite closings_reading.
Qed.

Lemma Nested_Read_closings {Logger W} (env : Env W) (handler : Handler W)
    (s : State (Nested.HTTPSource Logger) W) :
  let m := Nested.metadata (self s) in
  closings (during (Nested.Read env handler) s) =
    match http.NewRequest (url_Parse env) "GET" (Nested.URL m) None with
    | Err _ => []
    | Ok r =>
        let r := Nested.addCredentials r (Nested.Credentials m) in
        match (roundTrip env {| http.Timeout := 60 |} r (world s)).1 with
        | Ok {| http.RespBody := Some body |} =>
            if http.readErr body is None then [body] else []
        | _ => []
        end
    end.
Proof.
  intros m. subst m. rewrite Nested_Read_during.
  destruct (http.NewRequest _ _ _ _); simpl; [|done].
  by rewrite closings_reading.
Qed.

(** [Invoke] in the nested version closes the body of every response. *)
Lemma Nested_Invoke_closings {Logger W} (env : Env W)
    (req : bindings.InvokeRequest) (s : State (Nested.HTTPSource Logger) W) :
  let m := Nested.metadata (self s) in
  closings (during (Nested.Invoke env req) s) =
    match http.NewRequest (url_Parse env) "POST" (Nested.URL m)
            (Some (bindings.Data req)) with
    | Err _ => []
    | Ok r =>
        let r := Nested.addCredentials
                   (http.Header_Set "Content-Type"
                      "application/json; charset=utf-8" r)
                   (Nested.Credentials m) in
        match (roundTrip env {| http.Timeout := 5 |} r (world s)).1 with
        | Ok {| http.RespBody := Some body |} => [body]
        | _ => []
        end
    end.
Proof.
  intros m. subst m. rewrite Nested_Invoke_during.
  destruct (http.NewRequest _ _ _ _); simpl; [|done]. cases.
Qed.

(** C6.  The endpoint answers and reading the body of the answer fails:
    [Read] of either version and [Invoke] of the flat version return the
    read error and close nothing.  [Invoke] of the nested version closes
    the same body, and [Read] closes a body that it could read. *)
Theorem body_left_open_on_read_error :
  let env := Sample.answering "200 OK" Sample.brokenBody in
  let req := {| bindings.Data := "{}" |} in
  let sF := Sample.flat {| Flat.URL := "http://x/feed"; Flat.Method := "POST";
                           Flat.User := ""; Flat.Password := "" |} in
  let sN := Sample.nested {| Nested.URL := "http://x/feed";
                             Nested.Method := "POST";
                             Nested.Credentials := None |} in
  let kinds t := (λ ev, match ev with
                        | EvDo _ _ => "Do"
                        | EvReadAll _ => "ReadAll"
                        | EvClose _ => "Close"
                        | EvHandler _ => "handler"
                        end) <$> t in
  ((Flat.Read env Sample.keep sF).1
     = Done (Some (ExternalError "unexpected EOF"))
   ∧ kinds (during (Flat.Read env Sample.keep) sF) = ["Do"; "ReadAll"]
   ∧ closings (during (Flat.Read env Sample.keep) sF) = [])
  ∧ ((Flat.Invoke env req sF).1 = Done (Err (ExternalError "unexpected EOF"))
     ∧ kinds (during (Flat.Invoke env req) sF) = ["Do"; "ReadAll"]
     ∧ closings (during (Flat.Invoke env req) sF) = [])
  ∧ ((Nested.Read env Sample.keep sN).1
       = Done (Some (ExternalError "unexpected EOF"))
     ∧ kinds (during (Nested.Read env Sample.keep) sN) = ["Do"; "ReadAll"]
     ∧ closings (during (Nested.Read env Sample.keep) sN) = [])
  ∧ closings (during (Nested.Invoke env req) sN) = [Sample.brokenBody]
  ∧ closings (during
       (Flat.Read (Sample.answering "200 OK" (Sample.body "data")) Sample.keep)
       sF) = [Sample.body "data"].
Proof. repeat split; reflexivity. Qed.

(** * Further properties *)

(** ** What [Init] stores *)

Lemma encodedString_ascii s : ascii_only s → json.encodedString s = s.
Proof.
  unfold ascii_only. induction s as [|c s IH]; simpl; [done|].
  intros [Hc Hs]%Forall_cons.
  apply N.ltb_lt in Hc. rewrite Hc. f_equal. by apply IH.
Qed.

(** Among [names], the key that folds to [name] selects [name], when no
    two of the names fold together and none is spelt as another. *)
Ltac find_field Hfold :=
  unfold json.findField; simpl; eqb_cases; try done;
  unfold json.equalFold in *;
  repeat match goal with
         | |- context [String.eqb (json.foldName ?n) (json.foldName ?k)] =>
             destruct (String.eqb_spec (json.foldName n) (json.foldName k))
               as [Heq|_];
             [first [done | by rewrite <-Heq in Hfold]|]
         end;
  try done.

Lemma findField_Flat name key :
  name ∈ Flat.fields →
  json.equalFold name key = true →
  json.findField Flat.fields key = Some name.
Proof.
  unfold Flat.fields. intros Hin Hfold. set_unfold in Hin.
  destruct Hin as [->|[->|[->|[->|[]]]]]; find_field Hfold.
Qed.

Lemma findField_Nested name key :
  name ∈ Nested.fields →
  json.equalFold name key = true →
  json.findField Nested.fields key = Some name.
Proof.
  unfold Nested.fields. intros Hin Hfold. set_unfold in Hin.
  destruct Hin as [->|[->|[->|[]]]]; find_field Hfold.
Qed.

Section object_value.
Context {T : Type} (names : list string)
  (store : string → json.value → T → T * option error).

(** A string field takes the value that the members decoded into it
    agree on. *)
Lemma object_field_value (proj : T → string) name s members t saved :
  (∀ f v t, proj (store f (json.JString v) t).1
            = if String.eqb f name then v else proj t) →
  (∀ key, json.equalFold name key = true →
          json.findField names key = Some name) →
  Forall is_string members →
  Forall (λ kv, json.equalFold name kv.1 = true → kv.2 = json.JString s)
    members →
  proj t = s ∨ Exists (λ kv, json.equalFold name kv.1 = true) members →
  proj (json.object names store members t saved).1 = s.
Proof.
  intros Hstore Hfind Hstr. revert t saved.
  induction Hstr as [|[key v] members [v' Hv] _ IH]; intros t saved Hall Hex.
  { destruct Hex as [Ht|Hex]; [done|by apply Exists_nil in Hex]. }
  apply Forall_cons in Hall as [Hhd Hall]. simpl in *. subst v.
  destruct (json.findField names key) as [f|] eqn:Hf.
  - specialize (Hstore f v' t).
    destruct (store f (json.JString v') t) as [t' e]. simpl in Hstore.
    apply IH; [done|]. rewrite Hstore.
    destruct (String.eqb_spec f name) as [->|Hne].
    + left. apply findField_fold in Hf as [_ Hfold].
      specialize (Hhd Hfold). by simplify_eq.
    + destruct Hex as [Ht|[Hfold|Hex]%Exists_cons]; [by left| |by right].
      simpl in Hfold. rewrite (Hfind key Hfold) in Hf. by simplify_eq.
  - apply IH; [done|].
    destruct Hex as [Ht|[Hfold|Hex]%Exists_cons]; [by left| |by right].
    simpl in Hfold. rewrite (Hfind key Hfold) in Hf. done.
Qed.
End object_value.

Lemma Marshal_given name (bag : gmap string string) v :
  given name (Some bag) v →
  let members := (λ kv : string * string,
      (json.encodedString kv.1, json.JString (json.encodedString kv.2)))
        <$> json.sortedEntries bag in
  Forall (λ kv, json.equalFold name kv.1 = true
                → kv.2 = json.JString (json.encodedString v)) members
  ∧ Exists (λ kv, json.equalFold name kv.1 = true) members.
Proof.
  intros [(k & v' & Hk & Hbinds) Hall]. simpl in *. split.
  - apply Forall_forall.
    intros [key val] (k' & v'' & Hk' & -> & ->)%Marshal_members Hfold.
    simpl in *. by rewrite (Hall k' v'' Hk' Hfold).
  - apply Exists_exists.
    exists (json.encodedString k, json.JString (json.encodedString v')).
    split; [|done]. apply list_elem_of_fmap. exists (k, v').
    split; [done|]. by apply sortedEntries_elem.
Qed.

Lemma Flat_store_credentials f s m :
  let m' := (Flat.store f (json.JString s) m).1 in
  Flat.User m' = (if String.eqb f "user" then s else Flat.User m)
  ∧ Flat.Password m'
    = (if String.eqb f "password" then s else Flat.Password m).
Proof. unfold Flat.store. eqb_cases; done. Qed.

Lemma Flat_Init_field {Logger W} (md : bindings.Metadata)
    (s : State (Flat.HTTPSource Logger) W) name
    (proj : Flat.httpMetadata → string) v :
  name ∈ Flat.fields →
  (∀ f v t, proj (Flat.store f (json.JString v) t).1
            = if String.eqb f name then v else proj t) →
  given name (bindings.Properties md) v →
  proj (Flat.metadata (self (Flat.Init md s).2)) = json.encodedString v.
Proof.
  intros Hname Hstore Hgiven.
  destruct (Flat_Init_run md s) as (b & m & Hb & Hu & ->). simpl.
  destruct (bindings.Properties md) as [bag|]; simpl in Hb.
  - injection Hb as <-. simpl in Hu.
    apply (f_equal fst) in Hu. simpl in Hu. subst m.
    destruct (Marshal_given name bag v Hgiven) as [Hall Hex].
    apply (object_field_value _ _ proj name);
      [exact Hstore|intros key; by apply findField_Flat
      |apply Marshal_strings|done|by right].
  - destruct Hgiven as [Hex _]. simpl in Hex.
    by apply map_Exists_empty in Hex.
Qed.

Lemma Nested_Init_field {Logger W} (md : bindings.Metadata)
    (s : State (Nested.HTTPSource Logger) W) name
    (proj : Nested.httpMetadata → string) v :
  name ∈ Nested.fields →
  (∀ f v t, proj (Nested.store f (json.JString v) t).1
            = if String.eqb f name then v else proj t) →
  missing "credentials" (bindings.Properties md) →
  given name (bindings.Properties md) v →
  proj (Nested.metadata (self (Nested.Init md s).2)) = json.encodedString v.
Proof.
  intros Hname Hstore Hmiss Hgiven.
  destruct (Nested_Init_run md s Hmiss) as (b & m & Hb & Hu & ->). simpl.
  destruct (bindings.Properties md) as [bag|]; simpl in Hb.
  - injection Hb as <-. simpl in Hu.
    apply (f_equal fst) in Hu. simpl in Hu. subst m.
    destruct (Marshal_given name bag v Hgiven) as [Hall Hex].
    apply (object_field_value _ _ proj name);
      [exact Hstore|intros key; by apply findField_Nested
      |apply Marshal_strings|done|by right].
  - destruct Hgiven as [Hex _]. simpl in Hex.
    by apply map_Exists_empty in Hex.
Qed.

(** C7.  [Init] does not fail because [url] or [method] is absent or
    empty.  In the flat version it succeeds on every bag; in the nested
    version it succeeds on every bag without a [credentials] property.  The
    descriptor it stores holds the values of the bag: its [URL] is empty
    when [url] is absent or empty and is the value the bag gives (as
    [encoding/json] reads it back) when it gives one, and so is its
    [Method]. *)
Theorem Init_accepts_empty_url_and_method {Logger W}
    (properties : option (gmap string string)) :
  (∀ s : State (Flat.HTTPSource Logger) W, ∃ m,
     Flat.Init {| bindings.Properties := properties |} s =
       (Done None,
        {| self := {| Flat.metadata := m; Flat.logger := Flat.logger (self s) |};
           world := world s; trace := trace s |})
     ∧ (missing_or_empty "url" properties → Flat.URL m = "")
     ∧ (missing_or_empty "method" properties → Flat.Method m = "")
     ∧ (∀ v, given "url" properties v → Flat.URL m = json.encodedString v)
     ∧ (∀ v, given "method" properties v →
             Flat.Method m = json.encodedString v))
  ∧ (missing "credentials" properties →
     ∀ s : State (Nested.HTTPSource Logger) W, ∃ m,
       Nested.Init {| bindings.Properties := properties |} s =
         (Done None,
          {| self := {| Nested.metadata := m;
                        Nested.logger := Nested.logger (self s) |};
             world := world s; trace := trace s |})
       ∧ (missing_or_empty "url" properties → Nested.URL m = "")
       ∧ (missing_or_empty "method" properties → Nested.Method m = "")
       ∧ (∀ v, given "url" properties v → Nested.URL m = json.encodedString v)
       ∧ (∀ v, given "method" properties v →
               Nested.Method m = json.encodedString v)).
Proof.
  split.
  - intros s.
    destruct (Flat_Init_run {| bindings.Properties := properties |} s)
      as (b & m & Hb & Hu & Hinit).
    exists m. split; [done|].
    destruct (Flat_Unmarshal_empty _ b m Hb Hu) as [HU HM].
    split_and!; [done|done| |]; intros v Hgiven.
    + pose proof (Flat_Init_field {| bindings.Properties := properties |} s
                    "url" Flat.URL v ltac:(compute_done)
                    (λ f v t, proj1 (Flat_store_fields f v t)) Hgiven) as H.
      by rewrite Hinit in H.
    + pose proof (Flat_Init_field {| bindings.Properties := properties |} s
                    "method" Flat.Method v ltac:(compute_done)
                    (λ f v t, proj2 (Flat_store_fields f v t)) Hgiven) as H.
      by rewrite Hinit in H.
  - intros Hmiss s.
    destruct (Nested_Init_run {| bindings.Properties := properties |} s Hmiss)
      as (b & m & Hb & Hu & Hinit).
    exists m. split; [done|].
    destruct (Nested_Unmarshal_empty _ b m Hb Hu) as [HU HM].
    split_and!; [done|done| |]; intros v Hgiven.
    + pose proof (Nested_Init_field {| bindings.Properties := properties |} s
                    "url" Nested.URL v ltac:(compute_done)
                    (λ f v t, proj1 (Nested_store_fields f v t)) Hmiss Hgiven)
        as H.
      by rewrite Hinit in H.
    + pose proof (Nested_Init_field {| bindings.Properties := properties |} s
                    "method" Nested.Method v ltac:(compute_done)
                    (λ f v t, proj2 (Nested_store_fields f v t)) Hmiss Hgiven)
        as H.
      by rewrite Hinit in H.
Qed.

Lemma Init_accepts_empty_url_and_method_witness :
  let properties : option (gmap string string) :=
    Some (list_to_map [("url", "http://x/feed"); ("method", "");
                       ("user", "a")]) in
  missing "credentials" properties
  ∧ given "url" properties "http://x/feed"
  ∧ missing_or_empty "method" properties
  ∧ (∃ m, (Flat.Init {| bindings.Properties := properties |}
             (Sample.flat Flat.zero)) = (Done None, Sample.flat m)
          ∧ Flat.URL m = "http://x/feed" ∧ Flat.Method m = "")
  ∧ (∃ m, (Nested.Init {| bindings.Properties := properties |}
             (Sample.nested Nested.zero)) = (Done None, Sample.nested m)
          ∧ Nested.URL m = "http://x/feed" ∧ Nested.Method m = "").
Proof.
  intros properties.
  assert (missing "credentials" properties) as Hc by compute_done.
  assert (given "url" properties "http://x/feed") as Hu by compute_done.
  assert (missing_or_empty "method" properties) as Hm by compute_done.
  destruct (@Init_accepts_empty_url_and_method unit (list string) properties)
    as [Hflat Hnested].
  destruct (Hflat (Sample.flat Flat.zero)) as (m & Hinit & _ & HM & HU & _).
  destruct (Hnested Hc (Sample.nested Nested.zero))
    as (m' & Hinit' & _ & HM' & HU' & _).
  split_and!; [done..| |].
  - exists m. split; [exact Hinit|]. split; [exact (HU _ Hu)|auto].
  - exists m'. split; [exact Hinit'|]. split; [exact (HU' _ Hu)|auto].
Defined.

(** X1.  In the flat version, a property that the bag gives (under any
    spelling of its key that folds to the field's tag, all spellings present
    agreeing on the value) is stored by [Init] in its field, as
    [encoding/json] reads the value back: verbatim when the value is ASCII.
    This holds of [url], [method], [user] and [password]. *)
Theorem Flat_Init_stores_properties {Logger W} (md : bindings.Metadata)
    (s : State (Flat.HTTPSource Logger) W) :
  let properties := bindings.Properties md in
  let m := Flat.metadata (self (Flat.Init md s).2) in
  (∀ v, given "url" properties v →
        Flat.URL m = json.encodedString v ∧ (ascii_only v → Flat.URL m = v))
  ∧ (∀ v, given "method" properties v →
          Flat.Method m = json.encodedString v
          ∧ (ascii_only v → Flat.Method m = v))
  ∧ (∀ v, given "user" properties v →
          Flat.User m = json.encodedString v
          ∧ (ascii_only v → Flat.User m = v))
  ∧ (∀ v, given "password" properties v →
          Flat.Password m = json.encodedString v
          ∧ (ascii_only v → Flat.Password m = v)).
Proof.
  intros properties m. subst properties m.
  assert (∀ x v, x = json.encodedString v →
                 x = json.encodedString v ∧ (ascii_only v → x = v)) as Hboth.
  { intros x v ->. split; [done|]. apply encodedString_ascii. }
  split_and!; intros v Hgiven; apply Hboth.
  - apply (Flat_Init_field md s "url" Flat.URL); [compute_done| |done].
    apply Flat_store_fields.
  - apply (Flat_Init_field md s "method" Flat.Method); [compute_done| |done].
    apply Flat_store_fields.
  - apply (Flat_Init_field md s "user" Flat.User); [compute_done| |done].
    apply Flat_store_credentials.
  - apply (Flat_Init_field md s "password" Flat.Password);
      [compute_done| |done].
    apply Flat_store_credentials.
Qed.

Lemma Flat_Init_stores_properties_witness :
  let md := Sample.bag [("URL", "http://x/api"); ("Method", "POST");
                        ("user", "a"); ("password", "b")] in
  Flat.metadata (self (Flat.Init md (Sample.flat Flat.zero)).2)
  = {| Flat.URL := "http://x/api"; Flat.Method := "POST";
       Flat.User := "a"; Flat.Password := "b" |}.
Proof.
  intros md.
  destruct (Flat_Init_stores_properties md (Sample.flat Flat.zero))
    as (Hurl & Hmethod & Huser & Hpassword).
  destruct (Hurl "http://x/api") as [_ HU]; [compute_done|].
  destruct (Hmethod "POST") as [_ HM]; [compute_done|].
  destruct (Huser "a") as [_ Hu]; [compute_done|].
  destruct (Hpassword "b") as [_ Hp]; [compute_done|].
  specialize (HU ltac:(compute_done)). specialize (HM ltac:(compute_done)).
  specialize (Hu ltac:(compute_done)). specialize (Hp ltac:(compute_done)).
  destruct (Flat.metadata _) as [U M' Us P]. simpl in *. by subst.
Defined.

Lemma Flat_Unmarshal_no_credentials properties b m :
  json.Marshal properties = Ok b →
  Flat.Unmarshal b Flat.zero = (m, None) →
  (missing_or_empty "user" properties → Flat.User m = "")
  ∧ (missing_or_empty "password" properties → Flat.Password m = "").
Proof.
  destruct properties as [bag|]; intros [= <-]; simpl;
    [|by intros [= <-]].
  intros Hm.
  split; intros Hempty; apply (f_equal fst) in Hm; simpl in Hm; subst m.
  - apply (object_field_empty _ _ Flat.User "user");
      [apply Flat_store_credentials|apply Marshal_strings
      |by apply Marshal_empty_for|done].
  - apply (object_field_empty _ _ Flat.Password "password");
      [apply Flat_store_credentials|apply Marshal_strings
      |by apply Marshal_empty_for|done].
Qed.

Lemma Flat_requests_authorized {Logger W} (env : Env W)
    (handler : Handler W) (req : bindings.InvokeRequest)
    (s : State (Flat.HTTPSource Logger) W) :
  Forall (authorized (Flat.User (Flat.metadata (self s)))
                     (Flat.Password (Flat.metadata (self s))))
    (requests (during (Flat.Read env handler) s)
     ++ requests (during (Flat.Invoke env req) s)).
Proof.
  rewrite Flat_Read_requests, Flat_Invoke_requests. apply Forall_app. split.
  - destruct (url_Parse env _); repeat constructor.
    by apply Flat_addCredentials_authorized.
  - destruct (http.NewRequest _ _ _ _) as [r|err] eqn:Hreq;
      repeat constructor.
    apply NewRequest_Ok in Hreq as [-> _].
    by apply Flat_addCredentials_authorized.
Qed.

Lemma Nested_requests_authorized {Logger W} (env : Env W)
    (handler : Handler W) (req : bindings.InvokeRequest)
    (s : State (Nested.HTTPSource Logger) W) :
  Forall (λ r, match Nested.Credentials (Nested.metadata (self s)) with
               | Some c => authorized (Nested.User c) (Nested.Password c) r
               | None => http.Header r !! "Authorization" = None
               end)
    (requests (during (Nested.Read env handler) s)
     ++ requests (during (Nested.Invoke env req) s)).
Proof.
  rewrite Nested_Read_requests, Nested_Invoke_requests.
  apply Forall_app. split.
  - destruct (url_Parse env _); repeat constructor.
    destruct (Nested.Credentials _) as [[user password]|]; [|done].
    by apply Nested_addCredentials_authorized.
  - destruct (url_Parse env _); repeat constructor.
    destruct (Nested.Credentials _) as [[user password]|]; [|done].
    by apply Nested_addCredentials_authorized.
Qed.

(** X2.  [Init] of the flat version replaces the whole descriptor and does
    nothing else: an [Init] that follows another leaves the state that it
    alone would, and a bag without a user, or without a password, leaves a
    binding whose requests carry no [Authorization] header, whatever
    credentials the binding held before. *)
Theorem Flat_Init_replaces_descriptor {Logger W} (env : Env W)
    (md md' : bindings.Metadata) (handler : Handler W)
    (req : bindings.InvokeRequest) (s : State (Flat.HTTPSource Logger) W) :
  Flat.Init md' (Flat.Init md s).2 = Flat.Init md' s
  ∧ world (Flat.Init md s).2 = world s
  ∧ trace (Flat.Init md s).2 = trace s
  ∧ Flat.logger (self (Flat.Init md s).2) = Flat.logger (self s)
  ∧ (missing_or_empty "user" (bindings.Properties md)
     ∨ missing_or_empty "password" (bindings.Properties md) →
     Forall (λ r, http.Header r !! "Authorization" = None)
       (requests (during (Flat.Read env handler) (Flat.Init md s).2)
        ++ requests (during (Flat.Invoke env req) (Flat.Init md s).2))).
Proof.
  destruct (Flat_Init_run md s) as (b & m & Hb & Hu & Hinit).
  destruct (Flat_Init_run md' s) as (b' & m' & Hb' & Hu' & Hinit').
  destruct (Flat_Init_run md' (Flat.Init md s).2)
    as (b2 & m2 & Hb2 & Hu2 & Hinit2).
  rewrite Hb' in Hb2. injection Hb2 as <-. rewrite Hu' in Hu2.
  injection Hu2 as <-.
  split_and!.
  - rewrite Hinit2, Hinit', Hinit. done.
  - by rewrite Hinit.
  - by rewrite Hinit.
  - by rewrite Hinit.
  - intros Hmissing.
    destruct (Flat_Unmarshal_no_credentials _ b m Hb Hu) as [Huser Hpass].
    pose proof (Flat_requests_authorized env handler req
                  (Flat.Init md s).2) as Hauth.
    rewrite Hinit in *. simpl in *.
    eapply Forall_impl; [exact Hauth|]. intros r. unfold authorized.
    case_decide as Hboth; [|done].
    destruct Hboth as [Hu0 Hp0], Hmissing as [Hm|Hm]; [by apply Huser in Hm|].
    by apply Hpass in Hm.
Qed.

Lemma Flat_Init_replaces_descriptor_witness :
  let env := Sample.answering "200 OK" (Sample.body "") in
  let first := Sample.bag [("url", "http://x/api"); ("user", "a");
                           ("password", "b")] in
  let second := Sample.bag [("url", "http://x/api"); ("user", "a")] in
  let s := (Flat.Init second (Flat.Init first (Sample.flat Flat.zero)).2).2 in
  Flat.User (Flat.metadata
               (self (Flat.Init first (Sample.flat Flat.zero)).2)) = "a"
  ∧ Flat.Password (Flat.metadata
                     (self (Flat.Init first (Sample.flat Flat.zero)).2)) = "b"
  ∧ Forall (λ r, http.Header r !! "Authorization" = None)
      (requests (during (Flat.Read env Sample.keep) s)
       ++ requests (during (Flat.Invoke env {| bindings.Data := "{}" |}) s)).
Proof.
  intros env first second s. split_and!; [reflexivity..|].
  apply (Flat_Init_replaces_descriptor env second second Sample.keep
           {| bindings.Data := "{}" |}
           (Flat.Init first (Sample.flat Flat.zero)).2).
  right. compute_done.
Defined.

(** ** [Init] of the nested version *)

Lemma Nested_store_error f s m :
  f ∈ Nested.fields →
  (Nested.store f (json.JString s) m).2
  = (if String.eqb f "credentials"
     then Some (UnmarshalTypeError "string" "httpMetadata.credentials")
     else None)
  ∧ (f ≠ "credentials" →
     Nested.Credentials (Nested.store f (json.JString s) m).1
     = Nested.Credentials m).
Proof.
  unfold Nested.fields. intros Hin. set_unfold in Hin.
  destruct Hin as [->|[->|[->|[]]]]; done.
Qed.

(** The only error that decoding a marshalled bag can report. *)
Lemma Nested_object_error members m :
  Forall is_string members →
  (json.object Nested.fields Nested.store members m None).2 = None
  ∨ (json.object Nested.fields Nested.store members m None).2
    = Some (UnmarshalTypeError "string" "httpMetadata.credentials").
Proof.
  intros Hstr. revert m.
  induction Hstr as [|[key v] members [s Hs] _ IH]; intros m; [by left|].
  simpl in *. subst v.
  destruct (json.findField Nested.fields key) as [f|] eqn:Hf; [|apply IH].
  apply findField_fold in Hf as [Hin _].
  destruct (Nested_store_error f s m Hin) as [He _].
  destruct (Nested.store f (json.JString s) m) as [m' e]. simpl in He.
  subst e. destruct (String.eqb f "credentials"); simpl; [|apply IH].
  right. apply object_saved.
Qed.

Lemma Nested_object_Credentials members m saved :
  Forall is_string members →
  Forall (λ kv, json.equalFold "credentials" kv.1 ≠ true) members →
  Nested.Credentials
    (json.object Nested.fields Nested.store members m saved).1
  = Nested.Credentials m.
Proof.
  intros Hstr. revert m saved.
  induction Hstr as [|[key v] members [s Hs] _ IH]; intros m saved Hall;
    [done|].
  apply Forall_cons in Hall as [Hhd Hall]. simpl in *. subst v.
  destruct (json.findField Nested.fields key) as [f|] eqn:Hf; [|by apply IH].
  apply findField_fold in Hf as [Hin Hfold].
  destruct (Nested_store_error f s m Hin) as [_ Hc].
  destruct (Nested.store f (json.JString s) m) as [m' e]. simpl in Hc.
  rewrite IH by done. apply Hc. by intros ->.
Qed.

(** X3.  [Init] of the nested version succeeds when no property of the bag
    is decoded into [credentials].  When one is, under any spelling of the
    key, [Init] returns the type error of [encoding/json] for a string
    where an object is wanted, and leaves the binding, the world and the log
    as they were. *)
Theorem Nested_Init_fails_on_credentials {Logger W} (md : bindings.Metadata)
    (s : State (Nested.HTTPSource Logger) W) :
  (missing "credentials" (bindings.Properties md) →
   (Nested.Init md s).1 = Done None)
  ∧ (¬ missing "credentials" (bindings.Properties md) →
     Nested.Init md s =
       (Done (Some (UnmarshalTypeError "string" "httpMetadata.credentials")),
        s)).
Proof.
  split; intros Hmiss.
  - destruct (Nested_Init_run md s Hmiss) as (b & m & _ & _ & ->). done.
  - destruct (Nested_Init_credentials md s Hmiss) as [err Hinit].
    rewrite Hinit. revert Hinit. unfold Nested.Init.
    destruct (bindings.Properties md) as [bag|]; simpl.
    + pose proof (Nested_object_error _ Nested.zero (Marshal_strings bag))
        as Herr.
      destruct (json.object _ _ _ _ _) as [m [e|]]; simpl in *; [|done].
      destruct Herr as [|[= ->]]; [done|]. by intros [= <-].
    + done.
Qed.

Lemma Nested_Init_fails_on_credentials_witness :
  (Nested.Init (Sample.bag [("url", "http://x/api")])
     (Sample.nested Nested.zero)).1 = Done None
  ∧ Nested.Init (Sample.bag [("url", "http://x/api");
                             ("Credentials", "{user: a, password: b}")])
      (Sample.nested Nested.zero)
    = (Done (Some (UnmarshalTypeError "string" "httpMetadata.credentials")),
       Sample.nested Nested.zero).
Proof.
  split.
  - apply (Nested_Init_fails_on_credentials
             (Sample.bag [("url", "http://x/api")])). compute_done.
  - apply (Nested_Init_fails_on_credentials
             (Sample.bag [("url", "http://x/api");
                          ("Credentials", "{user: a, password: b}")])).
    compute_done.
Defined.

(** X4.  After a successful [Init] of the nested version the credentials
    pointer is nil, so no request of [Read] or [Invoke] carries an
    [Authorization] header: a property bag of strings cannot configure
    credentials in this version. *)
Theorem Nested_Init_leaves_no_credentials {Logger W} (env : Env W)
    (md : bindings.Metadata) (handler : Handler W)
    (req : bindings.InvokeRequest) (s : State (Nested.HTTPSource Logger) W) :
  (Nested.Init md s).1 = Done None →
  let s' := (Nested.Init md s).2 in
  Nested.Credentials (Nested.metadata (self s')) = None
  ∧ Forall (λ r, http.Header r !! "Authorization" = None)
      (requests (during (Nested.Read env handler) s')
       ++ requests (during (Nested.Invoke env req) s')).
Proof.
  intros Hok s'. subst s'.
  assert (missing "credentials" (bindings.Properties md)) as Hmiss.
  { destruct (decide (missing "credentials" (bindings.Properties md)))
      as [|Hno]; [done|].
    destruct (Nested_Init_credentials md s Hno) as [err Hinit].
    by rewrite Hinit in Hok. }
  destruct (Nested_Init_run md s Hmiss) as (b & m & Hb & Hu & Hinit).
  assert (Nested.Credentials m = None) as Hnil.
  { destruct (bindings.Properties md) as [bag|]; simpl in *.
    - injection Hb as <-. simpl in Hu. apply (f_equal fst) in Hu.
      simpl in Hu. subst m.
      rewrite Nested_object_Credentials; [done|apply Marshal_strings|].
      apply Forall_forall.
      intros [key val] (k & v & Hk & -> & ->)%Marshal_members. simpl.
      by apply (Hmiss k v).
    - injection Hb as <-. simpl in Hu. by injection Hu as <-. }
  pose proof (Nested_requests_authorized env handler req (Nested.Init md s).2)
    as Hauth.
  rewrite Hinit in *. simpl in *. rewrite Hnil in Hauth. done.
Qed.

Lemma Nested_Init_leaves_no_credentials_witness :
  let env := Sample.answering "200 OK" (Sample.body "") in
  let md := Sample.bag [("url", "http://x/api"); ("user", "a");
                        ("password", "b")] in
  let s' := (Nested.Init md (Sample.nested Nested.zero)).2 in
  Nested.Credentials (Nested.metadata (self s')) = None
  ∧ Forall (λ r, http.Header r !! "Authorization" = None)
      (requests (during (Nested.Read env Sample.keep) s')
       ++ requests (during (Nested.Invoke env {| bindings.Data := "{}" |})
                      s')).
Proof.
  intros env md s'.
  apply (Nested_Init_leaves_no_credentials env md Sample.keep
           {| bindings.Data := "{}" |} (Sample.nested Nested.zero)).
  reflexivity.
Defined.

(** ** Requests that cannot be built *)

Lemma NewRequest_usable url_Parse method url body :
  method = "" ∨ http.validMethod method = true →
  url_Parse url = None →
  http.NewRequest url_Parse method url body =
    Ok {| http.Method := if String.eqb method "" then "GET" else method;
          http.URL := url; http.Header := ∅; http.Body := body |}.
Proof.
  intros Hmethod Hurl. unfold http.NewRequest.
  destruct (String.eqb_spec method "") as [->|Hne].
  - simpl. by rewrite Hurl.
  - destruct Hmethod as [? | ->]; [done|]. simpl. by rewrite Hurl.
Qed.

Lemma NewRequest_bad_url url_Parse method url body err :
  method = "" ∨ http.validMethod method = true →
  url_Parse url = Some err →
  http.NewRequest url_Parse method url body = Err err.
Proof.
  intros Hmethod Hurl. unfold http.NewRequest.
  destruct (String.eqb_spec method "") as [->|Hne].
  - simpl. by rewrite Hurl.
  - destruct Hmethod as [? | ->]; [done|]. simpl. by rewrite Hurl.
Qed.

Lemma NewRequest_bad_method url_Parse method url body :
  method ≠ "" → http.validMethod method = false →
  http.NewRequest url_Parse method url body = Err (InvalidMethod method).
Proof.
  intros Hne Hbad. unfold http.NewRequest.
  destruct (String.eqb_spec method ""); [done|]. by rewrite Hbad.
Qed.

(** X5.  When the descriptor's url does not parse, [Read] and [Invoke]
    return the parse error and leave the state as it was: nothing is sent
    and the handler is not called.  For [Invoke] of the flat version this
    supposes a method that [http.NewRequest] accepts (empty, or a token). *)
Theorem unparsable_url_reaches_caller {Logger W} (env : Env W)
    (handler : Handler W) (req : bindings.InvokeRequest) (err : error)
    (sF : State (Flat.HTTPSource Logger) W)
    (sN : State (Nested.HTTPSource Logger) W) :
  let mF := Flat.metadata (self sF) in
  (url_Parse env (Flat.URL mF) = Some err →
   Flat.Read env handler sF = (Done (Some err), sF)
   ∧ (Flat.Method mF = "" ∨ http.validMethod (Flat.Method mF) = true →
      Flat.Invoke env req sF = (Done (Err err), sF)))
  ∧ (url_Parse env (Nested.URL (Nested.metadata (self sN))) = Some err →
     Nested.Read env handler sN = (Done (Some err), sN)
     ∧ Nested.Invoke env req sN = (Done (Err err), sN)).
Proof.
  intros mF. subst mF. split; intros Hurl.
  - split.
    + by rewrite Flat_Read_run, Flat_get_run, NewRequest_GET, Hurl.
    + intros Hmethod.
      by rewrite Flat_Invoke_run, (NewRequest_bad_url _ _ _ _ err).
  - split.
    + by rewrite Nested_Read_run, Nested_get_run, NewRequest_GET, Hurl.
    + by rewrite Nested_Invoke_run, NewRequest_POST, Hurl.
Qed.

(** X6.  In the flat version, a configured method that is neither empty
    nor an HTTP token makes [Invoke] fail with [InvalidMethod] before
    anything is sent, whatever the url; [Init] had accepted it, and [Read]
    is not affected. *)
Theorem invalid_method_fails_Invoke {Logger W} (env : Env W)
    (req : bindings.InvokeRequest) (handler : Handler W)
    (s : State (Flat.HTTPSource Logger) W) :
  let m := Flat.metadata (self s) in
  Flat.Method m ≠ "" →
  http.validMethod (Flat.Method m) = false →
  Flat.Invoke env req s = (Done (Err (InvalidMethod (Flat.Method m))), s)
  ∧ length (requests (during (Flat.Read env handler) s))
    = (if url_Parse env (Flat.URL m) is None then 1 else 0).
Proof.
  intros m Hne Hbad. subst m. split.
  - by rewrite Flat_Invoke_run, NewRequest_bad_method.
  - rewrite Flat_Read_requests. by destruct (url_Parse env _).
Qed.

Lemma unparsable_url_reaches_caller_witness :
  let err := ExternalError "missing protocol scheme" in
  let sF := Scenario.flat "://x" "POST" "" "" in
  let sN := Scenario.nested "://x" "" None in
  Flat.Read Scenario.strict Sample.keep sF = (Done (Some err), sF)
  ∧ Flat.Invoke Scenario.strict Scenario.payload sF = (Done (Err err), sF)
  ∧ Nested.Read Scenario.strict Sample.keep sN = (Done (Some err), sN)
  ∧ Nested.Invoke Scenario.strict Scenario.payload sN = (Done (Err err), sN).
Proof.
  intros err sF sN.
  destruct (unparsable_url_reaches_caller Scenario.strict Sample.keep
              Scenario.payload err sF sN) as [HF HN].
  destruct (HF eq_refl) as [HFr HFi]. destruct (HN eq_refl) as [HNr HNi].
  split_and!; [done| |done..]. apply HFi. by right.
Defined.

Lemma invalid_method_fails_Invoke_witness :
  let s := Scenario.flat "http://x/api" "GE T" "" "" in
  Flat.Invoke Scenario.strict Scenario.payload s
  = (Done (Err (InvalidMethod "GE T")), s).
Proof.
  intros s.
  apply (invalid_method_fails_Invoke Scenario.strict Scenario.payload
           Sample.keep s); done.
Defined.

(** ** Failures of the transport *)

Lemma roundTrips_reading {W} (env : Env W) client req w last :
  (∀ body, roundTrips (last body) = []) →
  roundTrips (reading env client req w last) = [].
Proof. intros Hlast. unfold reading. cases; simpl; by rewrite ?Hlast. Qed.

(** X7.  When the transport fails, whatever the request, the error it
    gives is what the call returns: [Read] returns it without calling the
    handler, [Invoke] returns it without a result; the log of the call is
    the one round trip, and the world is as the transport left it.  This
    supposes a url that parses and, for [Invoke] of the flat version, a
    method that [http.NewRequest] accepts. *)
Theorem transport_error_reaches_caller {Logger W} (env : Env W)
    (handler : Handler W) (req : bindings.InvokeRequest) (err : error)
    (sF : State (Flat.HTTPSource Logger) W)
    (sN : State (Nested.HTTPSource Logger) W) :
  let mF := Flat.metadata (self sF) in
  let mN := Nested.metadata (self sN) in
  ((∀ client r, (roundTrip env client r (world sF)).1 = Err err) →
   url_Parse env (Flat.URL mF) = None →
   (∃ r, Flat.Read env handler sF =
           (Done (Some err),
            {| self := self sF;
               world := (roundTrip env {| http.Timeout := 60 |} r
                           (world sF)).2;
               trace := trace sF ++ [EvDo {| http.Timeout := 60 |} r] |}))
   ∧ (Flat.Method mF = "" ∨ http.validMethod (Flat.Method mF) = true →
      ∃ r, Flat.Invoke env req sF =
             (Done (Err err),
              {| self := self sF;
                 world := (roundTrip env {| http.Timeout := 5 |} r
                             (world sF)).2;
                 trace := trace sF ++ [EvDo {| http.Timeout := 5 |} r] |})))
  ∧ ((∀ client r, (roundTrip env client r (world sN)).1 = Err err) →
     url_Parse env (Nested.URL mN) = None →
     (∃ r, Nested.Read env handler sN =
             (Done (Some err),
              {| self := self sN;
                 world := (roundTrip env {| http.Timeout := 60 |} r
                             (world sN)).2;
                 trace := trace sN ++ [EvDo {| http.Timeout := 60 |} r] |}))
     ∧ (∃ r, Nested.Invoke env req sN =
               (Done (Err err),
                {| self := self sN;
                   world := (roundTrip env {| http.Timeout := 5 |} r
                               (world sN)).2;
                   trace := trace sN ++ [EvDo {| http.Timeout := 5 |} r] |}))).
Proof.
  intros mF mN. subst mF mN.
  assert (∀ (client : http.Client) (r : http.Request) (w : W),
            (roundTrip env client r w).1 = Err err →
            roundTrip env client r w
            = (Err err, (roundTrip env client r w).2)) as Hpair.
  { intros client r w Hrt. destruct (roundTrip env client r w). simpl in *.
    by subst. }
  split; intros Hfail Hurl.
  - split.
    + eexists. rewrite Flat_Read_run, Flat_get_run, NewRequest_GET, Hurl.
      simpl. by rewrite Hpair.
    + intros Hmethod. eexists.
      rewrite Flat_Invoke_run, (NewRequest_usable _ _ _ _ Hmethod Hurl).
      simpl. by rewrite Hpair.
  - split.
    + eexists. rewrite Nested_Read_run, Nested_get_run, NewRequest_GET, Hurl.
      simpl. by rewrite Hpair.
    + eexists. rewrite Nested_Invoke_run, NewRequest_POST, Hurl.
      simpl. by rewrite Hpair.
Qed.

Lemma transport_error_reaches_caller_witness :
  let err := ExternalError "connection refused" in
  let sF := Scenario.flat "http://x/api" "POST" "" "" in
  let sN := Scenario.nested "http://x/api" "" None in
  (Flat.Read Sample.unreachable Sample.keep sF).1 = Done (Some err)
  ∧ handled (trace (Flat.Read Sample.unreachable Sample.keep sF).2) = []
  ∧ (Flat.Invoke Sample.unreachable Scenario.payload sF).1 = Done (Err err)
  ∧ (Nested.Read Sample.unreachable Sample.keep sN).1 = Done (Some err)
  ∧ (Nested.Invoke Sample.unreachable Scenario.payload sN).1
    = Done (Err err).
Proof.
  intros err sF sN.
  destruct (transport_error_reaches_caller Sample.unreachable Sample.keep
              Scenario.payload err sF sN) as [HF HN].
  destruct HF as [[r HFr] HFi]; [done..|].
  destruct HFi as [r' HFi]; [by right|].
  destruct HN as [[r2 HNr] [r3 HNi]]; [done..|].
  rewrite HFr, HFi, HNr, HNi. done.
Defined.

(** ** The shape of a request *)

Lemma Flat_addCredentials_Header req user password :
  dom (http.Header (Flat.addCredentials req user password))
    ⊆ dom (http.Header req) ∪ {["Authorization"]}
  ∧ http.Header (Flat.addCredentials req user password) !! "Content-Type"
    = http.Header req !! "Content-Type".
Proof.
  unfold Flat.addCredentials, Flat.addBasicAuthHeader.
  destruct (negb _ && negb _); simpl;
    [|split; [apply union_subseteq_l|done]].
  rewrite dom_insert_L. split; [by rewrite (comm_L (∪))|].
  by rewrite lookup_insert_ne.
Qed.

Lemma Nested_addCredentials_Header req credentials :
  dom (http.Header (Nested.addCredentials req credentials))
    ⊆ dom (http.Header req) ∪ {["Authorization"]}
  ∧ http.Header (Nested.addCredentials req credentials) !! "Content-Type"
    = http.Header req !! "Content-Type".
Proof.
  unfold Nested.addCredentials, Nested.addBasicAuthHeader.
  destruct credentials as [c|]; [|split; [apply union_subseteq_l|done]].
  destruct (negb _ && negb _); simpl;
    [|split; [apply union_subseteq_l|done]].
  rewrite dom_insert_L. split; [by rewrite (comm_L (∪))|].
  by rewrite lookup_insert_ne.
Qed.

Section roundTrips.
Context {Logger W : Type} (env : Env W).

Lemma Flat_Read_roundTrips handler (s : State (Flat.HTTPSource Logger) W) :
  let m := Flat.metadata (self s) in
  roundTrips (during (Flat.Read env handler) s) =
    match url_Parse env (Flat.URL m) with
    | Some _ => []
    | None =>
        [({| http.Timeout := 60 |},
          Flat.addCredentials
            {| http.Method := "GET"; http.URL := Flat.URL m;
               http.Header := ∅; http.Body := None |}
            (Flat.User m) (Flat.Password m))]
    end.
Proof.
  intros m. subst m. rewrite Flat_Read_during, NewRequest_GET.
  destruct (url_Parse env _); simpl; [done|].
  by rewrite roundTrips_reading.
Qed.

Lemma Nested_Read_roundTrips handler
    (s : State (Nested.HTTPSource Logger) W) :
  let m := Nested.metadata (self s) in
  roundTrips (during (Nested.Read env handler) s) =
    match url_Parse env (Nested.URL m) with
    | Some _ => []
    | None =>
        [({| http.Timeout := 60 |},
          Nested.addCredentials
            {| http.Method := "GET"; http.URL := Nested.URL m;
               http.Header := ∅; http.Body := None |}
            (Nested.Credentials m))]
    end.
Proof.
  intros m. subst m. rewrite Nested_Read_during, NewRequest_GET.
  destruct (url_Parse env _); simpl; [done|].
  by rewrite roundTrips_reading.
Qed.

Lemma Flat_Invoke_roundTrips req (s : State (Flat.HTTPSource Logger) W) :
  let m := Flat.metadata (self s) in
  roundTrips (during (Flat.Invoke env req) s) =
    match http.NewRequest (url_Parse env) (Flat.Method m) (Flat.URL m)
            (Some (bindings.Data req)) with
    | Err _ => []
    | Ok r =>
        [({| http.Timeout := 5 |},
          Flat.addCredentials
            (http.Header_Set "Content-Type"
               "application/json; charset=utf-8" r)
            (Flat.User m) (Flat.Password m))]
    end.
Proof.
  intros m. subst m. rewrite Flat_Invoke_during.
  destruct (http.NewRequest _ _ _ _); simpl; [|done].
  by rewrite roundTrips_reading.
Qed.

Lemma Nested_Invoke_roundTrips req (s : State (Nested.HTTPSource Logger) W) :
  let m := Nested.metadata (self s) in
  roundTrips (during (Nested.Invoke env req) s) =
    match url_Parse env (Nested.URL m) with
    | Some _ => []
    | None =>
        [({| http.Timeout := 5 |},
          Nested.addCredentials
            (http.Header_Set "Content-Type"
               "application/json; charset=utf-8"
               {| http.Method := "POST"; http.URL := Nested.URL m;
                  http.Header := ∅;
                  http.Body := Some (bindings.Data req) |})
            (Nested.Credentials m))]
    end.
Proof.
  intros m. subst m. rewrite Nested_Invoke_during, NewRequest_POST.
  destruct (url_Parse env _); simpl; [done|]. cases.
Qed.
End roundTrips.

(** X8.  A call makes at most one round trip.  [Read] makes it with a
    timeout of 60 seconds, without a body, and with no header other than
    [Authorization]; [Invoke] makes it with a timeout of 5 seconds, the
    payload as body, [Content-Type: application/json; charset=utf-8], and
    no header other than these two.  This holds of both versions. *)
Theorem round_trip_shape {Logger W} (env : Env W) (handler : Handler W)
    (req : bindings.InvokeRequest)
    (sF : State (Flat.HTTPSource Logger) W)
    (sN : State (Nested.HTTPSource Logger) W) :
  let reads (cr : http.Client * http.Request) :=
    http.Timeout cr.1 = 60%N
    ∧ http.Body cr.2 = None
    ∧ dom (http.Header cr.2) ⊆ {["Authorization"]} in
  let invokes (cr : http.Client * http.Request) :=
    http.Timeout cr.1 = 5%N
    ∧ http.Body cr.2 = Some (bindings.Data req)
    ∧ http.Header cr.2 !! "Content-Type"
      = Some ["application/json; charset=utf-8"]
    ∧ dom (http.Header cr.2) ⊆ {["Content-Type"; "Authorization"]} in
  let once (t : list Event) := length (roundTrips t) ≤ 1 in
  (Forall reads (roundTrips (during (Flat.Read env handler) sF))
   ∧ once (during (Flat.Read env handler) sF))
  ∧ (Forall invokes (roundTrips (during (Flat.Invoke env req) sF))
     ∧ once (during (Flat.Invoke env req) sF))
  ∧ (Forall reads (roundTrips (during (Nested.Read env handler) sN))
     ∧ once (during (Nested.Read env handler) sN))
  ∧ (Forall invokes (roundTrips (during (Nested.Invoke env req) sN))
     ∧ once (during (Nested.Invoke env req) sN)).
Proof.
  intros reads invokes once. subst reads invokes once. simpl.
  rewrite Flat_Read_roundTrips, Flat_Invoke_roundTrips,
    Nested_Read_roundTrips, Nested_Invoke_roundTrips.
  split_and!.
  - destruct (url_Parse env _); repeat constructor; simpl.
    + apply Flat_addCredentials_target.
    + pose proof (Flat_addCredentials_Header
        {| http.Method := "GET"; http.URL := Flat.URL (Flat.metadata (self sF));
           http.Header := ∅; http.Body := None |}
        (Flat.User (Flat.metadata (self sF)))
        (Flat.Password (Flat.metadata (self sF)))) as [Hdom _].
      simpl in Hdom. set_solver.
  - destruct (url_Parse env _); simpl; lia.
  - destruct (http.NewRequest _ _ _ _) as [r|err] eqn:Hreq;
      repeat constructor; simpl;
      apply NewRequest_Ok in Hreq as [-> _].
    + by rewrite (proj2 (proj2 (Flat_addCredentials_target _ _ _))).
    + by rewrite (proj2 (Flat_addCredentials_Header _ _ _)).
    + match goal with
      | |- context [Flat.addCredentials ?r ?u ?p] =>
          pose proof (Flat_addCredentials_Header r u p) as [Hdom _]
      end.
      simpl in Hdom. rewrite dom_insert_L in Hdom. set_solver.
  - destruct (http.NewRequest _ _ _ _); simpl; lia.
  - destruct (url_Parse env _); repeat constructor; simpl.
    + apply Nested_addCredentials_target.
    + match goal with
      | |- context [Nested.addCredentials ?r ?c] =>
          pose proof (Nested_addCredentials_Header r c) as [Hdom _]
      end.
      simpl in Hdom. set_solver.
  - destruct (url_Parse env _); simpl; lia.
  - destruct (url_Parse env _); repeat constructor; simpl.
    + by rewrite (proj2 (proj2 (Nested_addCredentials_target _ _))).
    + by rewrite (proj2 (Nested_addCredentials_Header _ _)).
    + match goal with
      | |- context [Nested.addCredentials ?r ?c] =>
          pose proof (Nested_addCredentials_Header r c) as [Hdom _]
      end.
      simpl in Hdom. rewrite dom_insert_L in Hdom. set_solver.
  - destruct (url_Parse env _); simpl; lia.
Qed.

(** ** A call that succeeds *)

(** X9.  When the url parses and the transport answers, whatever the
    request, with a response whose body reads to its end, [Read] makes the
    round trip, reads the body, closes it, and only then calls the handler,
    once, with the whole body; it returns nil in the world the handler
    left.  This holds of both versions. *)
Theorem Read_delivers_body {Logger W} (env : Env W) (handler : Handler W)
    (resp : http.Response) (body : http.ReadCloser)
    (sF : State (Flat.HTTPSource Logger) W)
    (sN : State (Nested.HTTPSource Logger) W) :
  http.RespBody resp = Some body →
  http.readErr body = None →
  let data := {| bindings.read_Data := http.content body |} in
  ((∀ client r, (roundTrip env client r (world sF)).1 = Ok resp) →
   url_Parse env (Flat.URL (Flat.metadata (self sF))) = None →
   ∃ r, let client := {| http.Timeout := 60 |} in
     Flat.Read env handler sF =
       (Done None,
        {| self := self sF;
           world := (handler data
                       (roundTrip env client r (world sF)).2).2;
           trace := trace sF ++ [EvDo client r; EvReadAll body;
                                 EvClose body; EvHandler data] |}))
  ∧ ((∀ client r, (roundTrip env client r (world sN)).1 = Ok resp) →
     url_Parse env (Nested.URL (Nested.metadata (self sN))) = None →
     ∃ r, let client := {| http.Timeout := 60 |} in
       Nested.Read env handler sN =
         (Done None,
          {| self := self sN;
             world := (handler data
                         (roundTrip env client r (world sN)).2).2;
             trace := trace sN ++ [EvDo client r; EvReadAll body;
                                   EvClose body; EvHandler data] |})).
Proof.
  intros Hbody Hread data. subst data.
  assert (∀ (client : http.Client) (r : http.Request) (w : W),
            (roundTrip env client r w).1 = Ok resp →
            roundTrip env client r w
            = (Ok resp, (roundTrip env client r w).2)) as Hpair.
  { intros client r w Hrt. destruct (roundTrip env client r w). simpl in *.
    by subst. }
  split; intros Hanswer Hurl; eexists; simpl.
  - rewrite Flat_Read_run, Flat_get_run, NewRequest_GET, Hurl. simpl.
    rewrite Hpair by done. rewrite Hbody, Hread. simpl.
    by rewrite <-app_assoc.
  - rewrite Nested_Read_run, Nested_get_run, NewRequest_GET, Hurl. simpl.
    rewrite Hpair by done. rewrite Hbody, Hread. simpl.
    by rewrite <-app_assoc.
Qed.

Lemma Read_delivers_body_witness :
  let env := Sample.answering "200 OK" (Sample.body "data") in
  let sF := Scenario.flat "http://x/feed" "" "" "" in
  (Flat.Read env Sample.keep sF).1 = Done None
  ∧ world (Flat.Read env Sample.keep sF).2 = ["data"]
  ∧ closings (trace (Flat.Read env Sample.keep sF).2) = [Sample.body "data"]
  ∧ handled (trace (Flat.Read env Sample.keep sF).2)
    = [{| bindings.read_Data := "data" |}].
Proof.
  intros env sF.
  destruct (Read_delivers_body env Sample.keep
              {| http.Status := "200 OK";
                 http.RespBody := Some (Sample.body "data") |}
              (Sample.body "data") sF (Scenario.nested "" "" None)
              eq_refl eq_refl) as [HF _].
  destruct HF as [r ->]; done.
Defined.

(** X10.  In both versions, once [Init] has stored a url given in ASCII,
    the requests of [Read] and [Invoke] have exactly that url as their
    target.  For the nested version this supposes a bag without a
    [credentials] property. *)
Theorem calls_target_configured_url {Logger W} (env : Env W)
    (md : bindings.Metadata) (url : string) (handler : Handler W)
    (req : bindings.InvokeRequest)
    (sF : State (Flat.HTTPSource Logger) W)
    (sN : State (Nested.HTTPSource Logger) W) :
  given "url" (bindings.Properties md) url →
  ascii_only url →
  Forall (λ r, http.URL r = url)
    (requests (during (Flat.Read env handler) (Flat.Init md sF).2)
     ++ requests (during (Flat.Invoke env req) (Flat.Init md sF).2))
  ∧ (missing "credentials" (bindings.Properties md) →
     Forall (λ r, http.URL r = url)
       (requests (during (Nested.Read env handler) (Nested.Init md sN).2)
        ++ requests (during (Nested.Invoke env req) (Nested.Init md sN).2))).
Proof.
  intros Hgiven Hascii. split.
  - pose proof (Flat_Init_field md sF "url" Flat.URL url
                  ltac:(compute_done) (λ f v t,
                    proj1 (Flat_store_fields f v t)) Hgiven) as Hurl.
    rewrite encodedString_ascii in Hurl by done.
    rewrite Flat_Read_requests, Flat_Invoke_requests, Hurl.
    apply Forall_app. split.
    + destruct (url_Parse env _); repeat constructor.
      by rewrite (proj1 (proj2 (Flat_addCredentials_target _ _ _))).
    + destruct (http.NewRequest _ _ _ _) as [r|err] eqn:Hreq;
        repeat constructor.
      apply NewRequest_Ok in Hreq as [-> _].
      by rewrite (proj1 (proj2 (Flat_addCredentials_target _ _ _))).
  - intros Hmiss.
    pose proof (Nested_Init_field md sN "url" Nested.URL url
                  ltac:(compute_done) (λ f v t,
                    proj1 (Nested_store_fields f v t)) Hmiss Hgiven) as Hurl.
    rewrite encodedString_ascii in Hurl by done.
    rewrite Nested_Read_requests, Nested_Invoke_requests, Hurl.
    apply Forall_app.
    split; destruct (url_Parse env _); repeat constructor;
      by rewrite (proj1 (proj2 (Nested_addCredentials_target _ _))).
Qed.

Lemma calls_target_configured_url_witness :
  let env := Sample.answering "200 OK" (Sample.body "") in
  let md := Sample.bag [("Url", "http://x/api"); ("method", "PUT")] in
  Forall (λ r, http.URL r = "http://x/api")
    (requests (during (Flat.Read env Sample.keep)
                 (Flat.Init md (Sample.flat Flat.zero)).2)
     ++ requests (during (Flat.Invoke env Scenario.payload)
                    (Flat.Init md (Sample.flat Flat.zero)).2))
  ∧ length
      (requests (during (Flat.Read env Sample.keep)
                   (Flat.Init md (Sample.flat Flat.zero)).2)
       ++ requests (during (Flat.Invoke env Scenario.payload)
                      (Flat.Init md (Sample.flat Flat.zero)).2)) = 2.
Proof.
  intros env md. split; [|reflexivity].
  destruct (calls_target_configured_url env md "http://x/api" Sample.keep
              Scenario.payload (Sample.flat Flat.zero)
              (Sample.nested Nested.zero)) as [HF _]; [compute_done..|].
  exact HF.
Defined.

(** ** Reading and closing *)

Lemma readings_reading {W} (env : Env W) client req w last :
  (∀ body, readings (last body) = []) →
  readings (reading env client req w last) =
    match (roundTrip env client req w).1 with
    | Ok {| http.RespBody := Some body |} => [body]
    | _ => []
    end.
Proof. intros Hlast. unfold reading. cases; simpl; by rewrite ?Hlast. Qed.

(** X11.  [Invoke] of the nested version never reads a response body and
    never returns a result.  Called with a request, it returns an error or
    [nil, nil]; called with a nil request, it panics at [req.Data] and
    leaves the state as it was, nothing being sent. *)
Theorem Nested_Invoke_discards_response {Logger W} (env : Env W)
    (req : option bindings.InvokeRequest)
    (s : State (Nested.HTTPSource Logger) W) :
  readings (during (Nested_Invoke_pointer env req) s) = []
  ∧ match req with
    | Some r =>
        (Nested_Invoke_pointer env req s).1 = Done (Ok None)
        ∨ ∃ err, (Nested_Invoke_pointer env req s).1 = Done (Err err)
    | None => Nested_Invoke_pointer env req s = (Panic, s)
    end.
Proof.
  destruct req as [r|]; simpl.
  - split.
    + rewrite Nested_Invoke_during.
      destruct (http.NewRequest _ _ _ _); simpl; [|done]. cases.
    + rewrite Nested_Invoke_run.
      destruct (http.NewRequest _ _ _ _); simpl; [|eauto].
      destruct (roundTrip env _ _ _) as [[resp|err] w]; simpl; [|eauto].
      left. by destruct (http.RespBody resp).
  - split; [|done]. by rewrite during_nil.
Qed.

(** X12.  No call closes a body twice, and [Read] (both versions) and
    [Invoke] of the flat version close only a body that they have read to
    its end. *)
Theorem closes_once_after_reading {Logger W} (env : Env W)
    (handler : Handler W) (req : bindings.InvokeRequest)
    (sF : State (Flat.HTTPSource Logger) W)
    (sN : State (Nested.HTTPSource Logger) W) :
  let disciplined (t : list Event) :=
    length (closings t) ≤ 1
    ∧ Forall (λ body, body ∈ readings t ∧ http.readErr body = None)
        (closings t) in
  disciplined (during (Flat.Read env handler) sF)
  ∧ disciplined (during (Flat.Invoke env req) sF)
  ∧ disciplined (during (Nested.Read env handler) sN)
  ∧ length (closings (during (Nested.Invoke env req) sN)) ≤ 1.
Proof.
  intros disciplined. subst disciplined. simpl.
  assert (∀ client r (w : W) last,
    (∀ body, closings (last body) = []) →
    (∀ body, readings (last body) = []) →
    length (closings (reading env client r w last)) ≤ 1
    ∧ Forall (λ body, body ∈ readings (reading env client r w last)
                      ∧ http.readErr body = None)
        (closings (reading env client r w last))) as Hreading.
  { intros client r w last Hc Hr.
    rewrite closings_reading, readings_reading by done.
    destruct (roundTrip env client r w).1 as [[status [body|]]|];
      simpl; [|by split; [lia|]..].
    destruct (http.readErr body) eqn:Herr; simpl; [by split; [lia|]|].
    split; [lia|]. repeat constructor; done. }
  rewrite Flat_Read_during, Flat_Invoke_during, Nested_Read_during,
    Nested_Invoke_closings.
  split; [|split; [|split]].
  - destruct (http.NewRequest _ _ _ _); simpl; [|by split; [lia|]].
    by apply Hreading.
  - destruct (http.NewRequest _ _ _ _); simpl; [|by split; [lia|]].
    by apply Hreading.
  - destruct (http.NewRequest _ _ _ _); simpl; [|by split; [lia|]].
    by apply Hreading.
  - destruct (http.NewRequest _ _ _ _); simpl; [|lia].
    destruct (roundTrip env _ _ _).1 as [[status [body|]]|]; simpl; lia.
Qed.

(** ** The [Authorization] header *)

Lemma append_cons c s t : String c s +:+ t = String c (s +:+ t).
Proof. reflexivity. Qed.

Lemma append_assoc (s t u : string) : (s +:+ t) +:+ u = s +:+ (t +:+ u).
Proof.
  induction s as [|c s IH]; [done|]. by rewrite !append_cons, IH.
Qed.

Lemma append_length (s t : string) :
  String.length (s +:+ t) = String.length s + String.length t.
Proof.
  induction s as [|c s IH]; [done|]. rewrite append_cons. simpl. by rewrite IH.
Qed.

Lemma encode_alphabet i :
  (i < 64)%N → base64.encode i ∈ list_ascii_of_string base64.encodeStd.
Proof.
  intros Hi.
  assert (Forall (λ n, base64.encode (N.of_nat n)
                       ∈ list_ascii_of_string base64.encodeStd)
            (seq 0 64)) as Hall by compute_done.
  rewrite Forall_forall in Hall. rewrite <-(N2Nat.id i). apply Hall.
  apply elem_of_seq. lia.
Qed.

Lemma sextet_alphabet val shift : base64_char (base64.sextet val shift).
Proof.
  left. apply encode_alphabet. change 63%N with (N.ones 6).
  rewrite N.land_ones. by apply N.mod_upper_bound.
Qed.

(** Three statements at once, to follow the three-byte steps of the
    encoder. *)
Lemma EncodeToString_steps (Q : string → Prop) :
  Q "" →
  (∀ a, Q (String a "")) →
  (∀ a b, Q (String a (String b ""))) →
  (∀ a b c s, Q s → Q (String a (String b (String c s)))) →
  ∀ s, Q s.
Proof.
  intros Q0 Q1 Q2 Q3.
  assert (∀ s, Q s ∧ (∀ a, Q (String a s))
               ∧ (∀ a b, Q (String a (String b s)))) as Hall.
  { induction s as [|c s (IH0 & IH1 & IH2)]; [done|].
    split_and!; [apply IH1|intros a; apply IH2|]. intros a b. by apply Q3. }
  intros s. apply Hall.
Qed.

Lemma EncodeToString_alphabet src :
  Forall base64_char (list_ascii_of_string (base64.EncodeToString src)).
Proof.
  induction src as [|a|a b|a b c s IH] using EncodeToString_steps; simpl.
  - constructor.
  - repeat (apply Forall_cons_2;
            [first [apply sextet_alphabet | by right]|]).
    constructor.
  - repeat (apply Forall_cons_2;
            [first [apply sextet_alphabet | by right]|]).
    constructor.
  - repeat (apply Forall_cons_2; [apply sextet_alphabet|]). exact IH.
Qed.

Lemma EncodeToString_length src :
  String.length (base64.EncodeToString src)
  = 4 * ((String.length src + 2) / 3).
Proof.
  induction src as [|a|a b|a b c s IH] using EncodeToString_steps;
    [done..|].
  change (String.length (base64.EncodeToString
            (String a (String b (String c s)))))
    with (4 + String.length (base64.EncodeToString s)).
  rewrite IH. simpl String.length.
  replace (S (S (S (String.length s))) + 2) with (1 * 3 + (String.length s + 2))
    by lia.
  rewrite Nat.div_add_l by done. lia.
Qed.

(** X13.  The value that [addBasicAuthHeader] sets is [Basic] followed by
    four characters for every three bytes, begun or complete, of
    [user:password], each of them in the base64 alphabet or the padding
    [=]: whatever bytes the user and password hold, none of them reaches
    the header as it is.  The two versions set the same header. *)
Theorem Authorization_value_is_base64 (request : http.Request)
    (user password : string) :
  let encodedAuth := base64.EncodeToString (user +:+ ":" +:+ password) in
  http.Header (Flat.addBasicAuthHeader request user password)
    !! "Authorization" = Some ["Basic " +:+ encodedAuth]
  ∧ Nested.addBasicAuthHeader request user password
    = Flat.addBasicAuthHeader request user password
  ∧ Forall base64_char (list_ascii_of_string encodedAuth)
  ∧ String.length encodedAuth
    = 4 * ((String.length user + String.length password + 3) / 3).
Proof.
  intros encodedAuth. subst encodedAuth. split_and!.
  - apply lookup_insert_eq.
  - done.
  - apply EncodeToString_alphabet.
  - rewrite EncodeToString_length, !append_length.
    change (String.length ":") with 1. do 2 f_equal. lia.
Qed.

(** X14.  A colon in the user name is not told from the separator: the
    credentials [(u:p, q)] and [(u, p:q)] give the same request. *)
Theorem colon_in_user_is_ambiguous (request : http.Request)
    (u p q : string) :
  Flat.addBasicAuthHeader request (u +:+ ":" +:+ p) q
  = Flat.addBasicAuthHeader request u (p +:+ ":" +:+ q)
  ∧ (u ≠ "" → q ≠ "" →
     Flat.addCredentials request (u +:+ ":" +:+ p) q
     = Flat.addCredentials request u (p +:+ ":" +:+ q)).
Proof.
  assert (Flat.addBasicAuthHeader request (u +:+ ":" +:+ p) q
          = Flat.addBasicAuthHeader request u (p +:+ ":" +:+ q)) as Heq.
  { unfold Flat.addBasicAuthHeader. by rewrite !append_assoc. }
  split; [done|]. intros Hu Hq. unfold Flat.addCredentials.
  rewrite Heq.
  destruct u as [|c u]; [done|]. destruct q as [|d q]; [done|].
  simpl. by destruct p.
Qed.

Lemma colon_in_user_is_ambiguous_witness :
  let request := {| http.Method := "GET"; http.URL := "http://x/feed";
                    http.Header := ∅; http.Body := None |} in
  Flat.addCredentials request "a:b" "c" = Flat.addCredentials request "a" "b:c".
Proof.
  intros request.
  by apply (colon_in_user_is_ambiguous request "a" "b" "c").
Defined.

(** ** The encoding loses nothing *)

Ltac nlia := zify; Z.to_euclidean_division_equations; lia.

Lemma lor_disjoint (a n x : N) :
  (x < 2 ^ n)%N → N.lor (N.shiftl a n) x = (a * 2 ^ n + x)%N.
Proof.
  intros Hx.
  assert (N.land (N.shiftl a n) x = 0%N) as Hland.
  { apply N.bits_inj. intros m. rewrite N.land_spec, N.bits_0.
    destruct (N.lt_ge_cases m n) as [Hm|Hm].
    - by rewrite N.shiftl_spec_low.
    - rewrite <-(N.mod_small x (2 ^ n)) by done.
      rewrite N.mod_pow2_bits_high by done. apply andb_false_r. }
  rewrite <-N.lxor_lor by done. rewrite <-N.add_nocarry_lxor by done.
  by rewrite N.shiftl_mul_pow2.
Qed.

Lemma byte_val_bounded c : (byte_val c < 256)%N.
Proof. apply N_ascii_bounded. Qed.

Lemma byte_val_inj c d : byte_val c = byte_val d → c = d.
Proof.
  intros Heq. rewrite <-(ascii_N_embedding c), <-(ascii_N_embedding d).
  unfold byte_val in Heq. by rewrite Heq.
Qed.

Lemma val3_sum (a b c : ascii) :
  N.lor (N.lor (N.shiftl (byte_val a) 16) (N.shiftl (byte_val b) 8))
    (byte_val c)
  = (byte_val a * 65536 + (byte_val b * 256 + byte_val c))%N.
Proof.
  pose proof (byte_val_bounded b). pose proof (byte_val_bounded c).
  rewrite <-N.lor_assoc.
  rewrite (lor_disjoint (byte_val b) 8) by done.
  rewrite lor_disjoint; [done|]. change (2 ^ 16)%N with 65536%N.
  change (2 ^ 8)%N with 256%N. lia.
Qed.

Lemma val2_sum (a b : ascii) :
  N.lor (N.shiftl (byte_val a) 16) (N.shiftl (byte_val b) 8)
  = (byte_val a * 65536 + byte_val b * 256)%N.
Proof.
  pose proof (byte_val_bounded b).
  rewrite lor_disjoint; rewrite N.shiftl_mul_pow2; [done|].
  change (2 ^ 16)%N with 65536%N. change (2 ^ 8)%N with 256%N. lia.
Qed.

Lemma encode_inj i j :
  (i < 64)%N → (j < 64)%N → base64.encode i = base64.encode j → i = j.
Proof.
  intros Hi Hj Heq.
  assert (Forall (λ n, Forall (λ m,
            base64.encode (N.of_nat n) = base64.encode (N.of_nat m) → n = m)
            (seq 0 64)) (seq 0 64)) as Hall by compute_done.
  rewrite Forall_forall in Hall.
  specialize (Hall (N.to_nat i)). rewrite Forall_forall in Hall.
  apply N2Nat.inj, Hall.
  - apply elem_of_seq. lia.
  - apply elem_of_seq. lia.
  - by rewrite !N2Nat.id.
Qed.

Lemma sextet_not_padding val shift :
  base64.sextet val shift ≠ base64.StdPadding.
Proof.
  unfold base64.sextet. change 63%N with (N.ones 6). rewrite N.land_ones.
  assert (N.shiftr val shift mod 2 ^ 6 < 64)%N as Hlt
    by by apply N.mod_upper_bound.
  revert Hlt. generalize (N.shiftr val shift mod 2 ^ 6)%N. intros i Hi.
  assert (Forall (λ n, base64.encode (N.of_nat n) ≠ base64.StdPadding)
            (seq 0 64)) as Hall by compute_done.
  rewrite Forall_forall in Hall. rewrite <-(N2Nat.id i). apply Hall.
  apply elem_of_seq. lia.
Qed.

Lemma sextet_inj val val' shift :
  base64.sextet val shift = base64.sextet val' shift →
  ((val / 2 ^ shift) mod 64 = (val' / 2 ^ shift) mod 64)%N.
Proof.
  unfold base64.sextet. change 63%N with (N.ones 6).
  rewrite !N.land_ones, !N.shiftr_div_pow2. change (2 ^ 6)%N with 64%N.
  apply encode_inj; by apply N.mod_upper_bound.
Qed.

Lemma quotient_remainder (v v' : N) :
  (v / 64 = v' / 64)%N → (v mod 64 = v' mod 64)%N → v = v'.
Proof. intros. nlia. Qed.

Lemma div_top (x : N) :
  (x < 16777216 → (x / 262144) mod 64 = x / 262144)%N.
Proof. intros. nlia. Qed.

Lemma div_mid (x : N) : (x / 4096 / 64 = x / 262144)%N.
Proof. nlia. Qed.

Lemma div_low (x : N) : (x / 64 / 64 = x / 4096)%N.
Proof. nlia. Qed.

Lemma sextets_inj (v v' : N) :
  (v < 16777216)%N → (v' < 16777216)%N →
  ((v / 2 ^ 18) mod 64 = (v' / 2 ^ 18) mod 64)%N →
  ((v / 2 ^ 12) mod 64 = (v' / 2 ^ 12) mod 64)%N →
  ((v / 2 ^ 6) mod 64 = (v' / 2 ^ 6) mod 64)%N →
  ((v / 2 ^ 0) mod 64 = (v' / 2 ^ 0) mod 64)%N →
  v = v'.
Proof.
  change (2 ^ 18)%N with 262144%N. change (2 ^ 12)%N with 4096%N.
  change (2 ^ 6)%N with 64%N. change (2 ^ 0)%N with 1%N.
  rewrite !N.div_1_r. intros Hv Hv' H1 H2 H3 H4.
  rewrite !div_top in H1 by done.
  assert (v / 4096 = v' / 4096)%N as H5
    by (apply quotient_remainder; [by rewrite !div_mid|done]).
  assert (v / 64 = v' / 64)%N as H6
    by (apply quotient_remainder; [by rewrite !div_low|done]).
  by apply quotient_remainder.
Qed.

Lemma mod_64_of_256 (x : N) : ((x * 256) mod 64 = 0)%N.
Proof. nlia. Qed.

Lemma div_64_of_65536 (x : N) : ((x * 65536 / 64) mod 64 = 0)%N.
Proof. nlia. Qed.

Lemma block3_inj (a b c a' b' c' : ascii) :
  let v := N.lor (N.lor (N.shiftl (byte_val a) 16)
                        (N.shiftl (byte_val b) 8)) (byte_val c) in
  let v' := N.lor (N.lor (N.shiftl (byte_val a') 16)
                         (N.shiftl (byte_val b') 8)) (byte_val c') in
  base64.sextet v 18 = base64.sextet v' 18 →
  base64.sextet v 12 = base64.sextet v' 12 →
  base64.sextet v 6 = base64.sextet v' 6 →
  base64.sextet v 0 = base64.sextet v' 0 →
  a = a' ∧ b = b' ∧ c = c'.
Proof.
  intros v v' H1%sextet_inj H2%sextet_inj H3%sextet_inj H4%sextet_inj.
  subst v v'. rewrite !val3_sum in *.
  pose proof (byte_val_bounded a). pose proof (byte_val_bounded b).
  pose proof (byte_val_bounded c). pose proof (byte_val_bounded a').
  pose proof (byte_val_bounded b'). pose proof (byte_val_bounded c').
  assert (byte_val a * 65536 + (byte_val b * 256 + byte_val c)
          = byte_val a' * 65536 + (byte_val b' * 256 + byte_val c'))%N as Hv
    by (apply sextets_inj; [lia|lia|done..]).
  clear H1 H2 H3 H4.
  split_and!; apply byte_val_inj; lia.
Qed.

Lemma block2_inj (a b a' b' : ascii) :
  let v := N.lor (N.shiftl (byte_val a) 16) (N.shiftl (byte_val b) 8) in
  let v' := N.lor (N.shiftl (byte_val a') 16) (N.shiftl (byte_val b') 8) in
  base64.sextet v 18 = base64.sextet v' 18 →
  base64.sextet v 12 = base64.sextet v' 12 →
  base64.sextet v 6 = base64.sextet v' 6 →
  a = a' ∧ b = b'.
Proof.
  intros v v' H1%sextet_inj H2%sextet_inj H3%sextet_inj.
  subst v v'. rewrite !val2_sum in *.
  pose proof (byte_val_bounded a). pose proof (byte_val_bounded b).
  pose proof (byte_val_bounded a'). pose proof (byte_val_bounded b').
  assert (byte_val a * 65536 + byte_val b * 256
          = byte_val a' * 65536 + byte_val b' * 256)%N as Hv.
  { apply sextets_inj; [lia|lia|done..|].
    rewrite !N.pow_0_r, !N.div_1_r.
    replace (byte_val a * 65536 + byte_val b * 256)%N
      with ((byte_val a * 256 + byte_val b) * 256)%N by lia.
    replace (byte_val a' * 65536 + byte_val b' * 256)%N
      with ((byte_val a' * 256 + byte_val b') * 256)%N by lia.
    by rewrite !mod_64_of_256. }
  clear H1 H2 H3.
  split; apply byte_val_inj; lia.
Qed.

Lemma block1_inj (a a' : ascii) :
  let v := N.shiftl (byte_val a) 16 in
  let v' := N.shiftl (byte_val a') 16 in
  base64.sextet v 18 = base64.sextet v' 18 →
  base64.sextet v 12 = base64.sextet v' 12 →
  a = a'.
Proof.
  intros v v' H1%sextet_inj H2%sextet_inj.
  subst v v'. rewrite !N.shiftl_mul_pow2 in *.
  change (2 ^ 16)%N with 65536%N in *.
  pose proof (byte_val_bounded a). pose proof (byte_val_bounded a').
  assert (byte_val a * 65536 = byte_val a' * 65536)%N as Hv.
  { apply sextets_inj; [lia|lia|done|done| |].
    - change (2 ^ 6)%N with 64%N. by rewrite !div_64_of_65536.
    - rewrite !N.pow_0_r, !N.div_1_r.
      replace (byte_val a * 65536)%N with (byte_val a * 256 * 256)%N by lia.
      replace (byte_val a' * 65536)%N with (byte_val a' * 256 * 256)%N
        by lia.
      by rewrite !mod_64_of_256. }
  clear H1 H2. apply byte_val_inj. lia.
Qed.

(** X15.  [EncodeToString] is injective: the header that
    [addBasicAuthHeader] sets determines the bytes of [user:password]. *)
Theorem Authorization_determines_credentials (request : http.Request)
    (user password user' password' : string) :
  (∀ src src', base64.EncodeToString src = base64.EncodeToString src' →
               src = src')
  ∧ (Flat.addBasicAuthHeader request user password
     = Flat.addBasicAuthHeader request user' password' →
     user +:+ ":" +:+ password = user' +:+ ":" +:+ password').
Proof.
  assert (∀ src src', base64.EncodeToString src = base64.EncodeToString src'
                      → src = src') as Hinj.
  { induction src as [|a|a b|a b c s IH] using EncodeToString_steps;
      intros [|a' [|b' [|c' s']]] Heq; try done;
      cbn [base64.EncodeToString] in Heq;
      injection Heq; clear Heq; intros;
      try match goal with
          | H : base64.sextet _ _ = base64.StdPadding |- _ =>
              by destruct (sextet_not_padding _ _ H)
          | H : base64.StdPadding = base64.sextet _ _ |- _ =>
              by destruct (sextet_not_padding _ _ (eq_sym H))
          end.
    - f_equal. by apply block1_inj.
    - destruct (block2_inj a b a' b') as [-> ->]; done.
    - destruct (block3_inj a b c a' b' c') as (-> & -> & ->); [done..|].
      do 3 f_equal. by apply IH. }
  split; [exact Hinj|].
  intros Heq. apply Hinj.
  apply (f_equal (λ r, http.Header r !! "Authorization")) in Heq.
  unfold Flat.addBasicAuthHeader in Heq. simpl in Heq.
  rewrite !lookup_insert_eq in Heq. injection Heq as Heq. exact Heq.
Qed.

Lemma Authorization_determines_credentials_witness :
  let request := {| http.Method := "GET"; http.URL := "http://x/feed";
                    http.Header := ∅; http.Body := None |} in
  "a:b" +:+ ":" +:+ "c" = "a" +:+ ":" +:+ "b:c".
Proof.
  intros request.
  apply (proj2 (Authorization_determines_credentials request
                  "a:b" "c" "a" "b:c")).
  reflexivity.
Defined.

(** ** The method of [Invoke] in the flat version *)

(** X16.  In the flat version, after [Init], the requests of [Invoke] go
    out with the method the bag gives, when it is given in ASCII and not
    empty, and with GET when the bag gives no method or an empty one. *)
Theorem Invoke_method_after_Init {Logger W} (env : Env W)
    (md : bindings.Metadata) (req : bindings.InvokeRequest)
    (s : State (Flat.HTTPSource Logger) W) :
  let issued := requests (during (Flat.Invoke env req) (Flat.Init md s).2) in
  (∀ method, given "method" (bindings.Properties md) method →
             ascii_only method → method ≠ "" →
             Forall (λ r, http.Method r = method) issued)
  ∧ (missing_or_empty "method" (bindings.Properties md) →
     Forall (λ r, http.Method r = "GET") issued).
Proof.
  intros issued. subst issued.
  pose proof (Flat_Invoke_method env req (Flat.Init md s).2) as Hmethod.
  simpl in Hmethod. split.
  - intros method Hgiven Hascii Hne.
    pose proof (Flat_Init_field md s "method" Flat.Method method
                  ltac:(compute_done) (λ f v t,
                    proj2 (Flat_store_fields f v t)) Hgiven) as Hm.
    rewrite encodedString_ascii in Hm by done. rewrite Hm in Hmethod.
    eapply Forall_impl; [exact Hmethod|]. intros r (-> & _).
    by destruct (String.eqb_spec method "").
  - intros Hempty.
    destruct (Flat_Init_run md s) as (b & m & Hb & Hu & Hinit).
    destruct (Flat_Unmarshal_empty _ b m Hb Hu) as [_ Hm].
    rewrite Hinit in Hmethod. simpl in Hmethod. rewrite (Hm Hempty) in Hmethod.
    rewrite Hinit. simpl.
    eapply Forall_impl; [exact Hmethod|]. by intros r (-> & _).
Qed.

Lemma Invoke_method_after_Init_witness :
  let env := Sample.answering "200 OK" (Sample.body "") in
  Forall (λ r, http.Method r = "PATCH")
    (requests (during (Flat.Invoke env Scenario.payload)
       (Flat.Init (Sample.bag [("url", "http://x/api"); ("METHOD", "PATCH")])
          (Sample.flat Flat.zero)).2))
  ∧ Forall (λ r, http.Method r = "GET")
      (requests (during (Flat.Invoke env Scenario.payload)
         (Flat.Init (Sample.bag [("url", "http://x/api")])
            (Sample.flat Flat.zero)).2)).
Proof.
  intros env. split.
  - destruct (Invoke_method_after_Init env
                (Sample.bag [("url", "http://x/api"); ("METHOD", "PATCH")])
                Scenario.payload (Sample.flat Flat.zero)) as [H _].
    apply (H "PATCH"); compute_done.
  - destruct (Invoke_method_after_Init env
                (Sample.bag [("url", "http://x/api")])
                Scenario.payload (Sample.flat Flat.zero)) as [_ H].
    apply H. compute_done.
Defined.

(** ** The descriptor of the nested version *)

(** X17.  In the nested version too, whatever calls of [Read], [Invoke]
    and [Operations] follow an [Init], the binding's metadata after them is
    the metadata the [Init] left, and the logger is the one the binding was
    built with. *)
Theorem Nested_descriptor_unchanged {Logger W} (env : Env W)
    (md : bindings.Metadata) (calls : list (Call W))
    (s : State (Nested.HTTPSource Logger) W) :
  let s1 := (Nested.Init md s).2 in
  self (foldl (λ s c, Nested_call env c s) s1 calls) = self s1
  ∧ Nested.logger (self s1) = Nested.logger (self s).
Proof.
  intros s1. split.
  - generalize s1. clear s1 s md.
    induction calls as [|c calls IH]; intros s; simpl; [done|].
    by rewrite IH, Nested_call_self.
  - subst s1. unfold Nested.Init.
    destruct (json.Marshal _) as [b|err]; [|done].
    by destruct (Nested.Unmarshal b Nested.zero) as [m [err|]].
Qed.
